(** * Order construction and dispatch of the Binance Futures testnet bot

    A shallow embedding of [bot/basic_bot.py] and [main.py].

    Python objects that the program mutates (the parameter dictionaries and
    the [OrderRequest] instance) live in a store indexed by references, so
    that aliasing and in-place updates ([params[k] = v], [params.update],
    [sanitized.pop]) are visible.  Logging calls and the single exchange
    call are recorded, in program order, in a trace.  Exceptions are
    results of the computation, carried together with the store and the
    trace reached when they were raised. *)

From Stdlib Require Import ZArith String Ascii.
From Stdlib Require Import Floats.SpecFloat.
From stdpp Require Import gmap strings list fin_maps.

Open Scope string_scope.
Open Scope list_scope.

(** ** Values *)

(** A [decimal.Decimal]: a signed coefficient with an exponent, the number
    [(-1) ^ negative * coefficient * 10 ^ exponent], an infinity, or a
    NaN. *)
Inductive Decimal :=
| DecFinite (negative : bool) (coefficient : N) (exponent : Z)
| DecInfinity (negative : bool)
| DecNaN.

(** A Python float: a binary64 number, infinity or NaN. *)
Abbreviation float := spec_float (only parsing).

(** [float(value)] for a [Decimal]: the binary64 number nearest to it, ties
    to the even mantissa; a number too large becomes an infinity, one too
    small a subnormal number or zero.  (The program never converts a NaN:
    [PositiveDecimal] raises before it does.) *)
Definition float_of_Decimal (d : Decimal) : float :=
  match d with
  | DecNaN => S754_nan
  | DecInfinity negative => S754_infinity negative
  | DecFinite negative m e =>
      if (m =? 0)%N then S754_zero negative
      else if (0 <=? e)%Z then
        binary_normalize 53 1024
          (if negative then - (Z.of_N m * 10 ^ e) else Z.of_N m * 10 ^ e)%Z
          0%Z negative
      else
        let '(q, e', l) :=
          SFdiv_core_binary 53 1024 (Z.of_N m) 0%Z (10 ^ (- e))%Z 0%Z in
        binary_round_aux 53 1024 negative q e' l
  end.

(** What a parameter dictionary ([Dict[str, Any]]) can hold. *)
Inductive value :=
| VNone
| VBool (b : bool)
| VInt (z : Z)
| VFloat (x : float)
| VStr (s : string).

(** [str.upper] on ASCII text. *)
Definition upper_ascii (c : ascii) : ascii :=
  let n := nat_of_ascii c in
  if (97 <=? n)%nat && (n <=? 122)%nat then ascii_of_nat (n - 32) else c.

Fixpoint upper (s : string) : string :=
  match s with
  | EmptyString => EmptyString
  | String c s' => String (upper_ascii c) (upper s')
  end.

(** ** Exceptions *)

(** The classes of what the program can see raised.  [Subclass name base]
    is any further class derived from [base] (for instance
    [requests.ConnectionError] from [Exception_], or [json.JSONDecodeError]
    from [ValueError]); [BaseOnly name] is a class derived from
    [BaseException] and not from [Exception] ([KeyboardInterrupt],
    [SystemExit], [GeneratorExit]). *)
Inductive exn_class :=
| Exception_
| BinanceAPIException
| BinanceOrderException
| ValueError
| KeyError
| TypeError
| Subclass (name : string) (base : exn_class)
| BaseOnly (name : string).

Record exn := mkExn { exn_cls : exn_class; exn_msg : string }.

Definition exn_class_eqb (c1 c2 : exn_class) : bool :=
  match c1, c2 with
  | Exception_, Exception_ => true
  | BinanceAPIException, BinanceAPIException => true
  | BinanceOrderException, BinanceOrderException => true
  | ValueError, ValueError => true
  | KeyError, KeyError => true
  | TypeError, TypeError => true
  | _, _ => false
  end.

(** [issubclass c Exception] *)
Fixpoint derives_from_Exception (c : exn_class) : bool :=
  match c with
  | BaseOnly _ => false
  | Subclass _ base => derives_from_Exception base
  | _ => true
  end.

(** [issubclass c target] for a built-in or SDK [target]. *)
Fixpoint issubclass (c target : exn_class) : bool :=
  match target with
  | Exception_ => derives_from_Exception c
  | _ =>
      exn_class_eqb c target ||
      match c with
      | Subclass _ base => issubclass base target
      | _ => false
      end
  end.

Definition isinstance (e : exn) (targets : list exn_class) : bool :=
  existsb (issubclass (exn_cls e)) targets.

(** ** The store, the trace and the computation monad *)

(** References into the store. *)
Abbreviation loc := nat (only parsing).

Record OrderRequest := mkOrderRequest {
  symbol : string;
  side : string;
  order_type : string;
  quantity : float;
  price : option float;
  time_in_force : string;
  stop_price : option float;
  reduce_only : option bool;
  extra_params : loc           (* a reference to a dictionary *)
}.

Inductive object :=
| ODict (d : gmap string value)
| OOrderRequest (o : OrderRequest).

(** The keyword arguments [execute_order] collects for the order call.  The
    keys [symbol], [side] and [quantity] are always there; an optional key
    is [None] when the dictionary does not have it. *)
Record kwargs := mkKwargs {
  kw_symbol : string;
  kw_side : string;
  kw_quantity : float;
  kw_reduce_only : option bool;
  kw_price : option float;
  kw_stop_price : option float;
  kw_time_in_force : option string
}.

Inductive level := DEBUG | INFO | ERROR.

(** The argument formatted into a log message. *)
Inductive log_arg :=
| LDict (d : gmap string value)
| LKwargs (k : kwargs)
| LExn (e : exn)
| LStr (s : string).

Inductive event :=
| Log (lvl : level) (msg : string) (args : list log_arg)
| CreateOrder (params : gmap string value).   (* the call of client.futures_create_order *)

Record world := mkWorld { heap : list object; trace : list event }.

Inductive result (A : Type) :=
| Ret (a : A) (w : world)
| Raise (e : exn) (w : world).
Arguments Ret {A} a w.
Arguments Raise {A} e w.

Definition M (A : Type) : Type := world -> result A.

Definition ret {A} (a : A) : M A := fun w => Ret a w.

Definition bind {A B} (m : M A) (k : A -> M B) : M B :=
  fun w => match m w with
           | Ret a w' => k a w'
           | Raise e w' => Raise e w'
           end.

Definition raise {A} (e : exn) : M A := fun w => Raise e w.

(** [try: body / except: handler]; the handler re-raises what it does not
    treat. *)
Definition try_except {A} (body : M A) (handler : exn -> M A) : M A :=
  fun w => match body w with
           | Ret a w' => Ret a w'
           | Raise e w' => handler e w'
           end.

Notation "x <- c1 ;; c2" := (bind c1 (fun x => c2))
  (at level 100, c1 at next level, right associativity).
Notation "c1 ;;; c2" := (bind c1 (fun _ => c2))
  (at level 100, right associativity).

Definition when (b : bool) (m : M unit) : M unit := if b then m else ret tt.

Definition emit (ev : event) : M unit :=
  fun w => Ret tt (mkWorld (heap w) (trace w ++ [ev])).

(** Creation of a Python object: a reference never used before. *)
Definition new_object (o : object) : M loc :=
  fun w => Ret (length (heap w)) (mkWorld (heap w ++ [o]) (trace w)).

Definition get_dict (l : loc) : M (gmap string value) :=
  fun w => match heap w !! l with
           | Some (ODict d) => Ret d w
           | _ => Raise (mkExn TypeError "not a mapping") w
           end.

Definition get_order (l : loc) : M OrderRequest :=
  fun w => match heap w !! l with
           | Some (OOrderRequest o) => Ret o w
           | _ => Raise (mkExn TypeError "not an OrderRequest") w
           end.

Definition put_dict (l : loc) (d : gmap string value) : M unit :=
  fun w => Ret tt (mkWorld (<[l := ODict d]> (heap w)) (trace w)).

(** [d[k] = v] *)
Definition dict_setitem (l : loc) (k : string) (v : value) : M unit :=
  d <- get_dict l ;; put_dict l (<[k := v]> d).

(** [d.update(other)]: the entries of [other] win. *)
Definition dict_update (l : loc) (other : loc) : M unit :=
  o <- get_dict other ;; d <- get_dict l ;; put_dict l (o ∪ d).

(** [d.pop(k, None)] *)
Definition dict_pop (l : loc) (k : string) : M unit :=
  d <- get_dict l ;; put_dict l (delete k d).

(** [dict(d)]: a new dictionary with the same entries. *)
Definition dict_copy (l : loc) : M loc :=
  d <- get_dict l ;; new_object (ODict d).

(** ** [OrderRequest.to_request_params] *)

Definition takes_time_in_force (t : string) : bool :=
  bool_decide (t ∈ ["LIMIT"; "STOP"; "STOP_MARKET"; "STOP_LIMIT"]).

Definition to_request_params (self : loc) : M loc :=
  o <- get_order self ;;
  params <- new_object (ODict (<["symbol" := VStr (upper (symbol o))]>
                              (<["side" := VStr (upper (side o))]>
                              (<["type" := VStr (upper (order_type o))]>
                              (<["quantity" := VFloat (quantity o)]> ∅))))) ;;
  match price o with
  | Some p => dict_setitem params "price" (VFloat p)
  | None => ret tt
  end ;;;
  when (takes_time_in_force (upper (order_type o)))
       (dict_setitem params "timeInForce" (VStr (time_in_force o))) ;;;
  match stop_price o with
  | Some p => dict_setitem params "stopPrice" (VFloat p)
  | None => ret tt
  end ;;;
  match reduce_only o with
  | Some b => dict_setitem params "reduceOnly" (VBool b)
  | None => ret tt
  end ;;;
  dict_update params (extra_params o) ;;;
  ret params.

(** The dictionary a call of [to_request_params] returns, read from the
    store it leaves. *)
Definition request_params_of (w : world) (self : loc) : option (gmap string value) :=
  match to_request_params self w with
  | Ret l w' => match heap w' !! l with
                | Some (ODict d) => Some d
                | _ => None
                end
  | Raise _ _ => None
  end.

(** ** [BasicBot._sanitize_for_logging] *)

Definition _sanitize_for_logging (params : loc) : M loc :=
  sanitized <- dict_copy params ;;
  dict_pop sanitized "signature" ;;;
  ret sanitized.

(** ** [BasicBot] *)

(** What [client.futures_create_order] does with the parameters it gets:
    it answers with a decoded response or raises. *)
Inductive client_result :=
| Response (r : gmap string value)
| Failure (e : exn).

Section Bot.

(** The exchange client, an external collaborator. *)
Variable client : gmap string value -> client_result.

Definition futures_create_order (params : gmap string value) : M (gmap string value) :=
  fun w =>
    let w' := mkWorld (heap w) (trace w ++ [CreateOrder params]) in
    match client params with
    | Response r => Ret r w'
    | Failure e => Raise e w'
    end.

Definition place_order (order : loc) : M (gmap string value) :=
  request_params <- to_request_params order ;;
  sanitized <- _sanitize_for_logging request_params ;;
  shown <- get_dict sanitized ;;
  emit (Log INFO "Sending order request: %s" [LDict shown]) ;;;
  try_except
    (sent <- get_dict request_params ;;
     response <- futures_create_order sent ;;
     emit (Log INFO "Order response: %s" [LDict response]) ;;;
     ret response)
    (fun exc =>
       if isinstance exc [BinanceAPIException; BinanceOrderException] then
         emit (Log ERROR "Binance API error: %s" [LExn exc]) ;;;
         raise exc
       else if isinstance exc [Exception_] then
         emit (Log ERROR "Unexpected error when placing order: %s" [LExn exc]) ;;;
         raise exc
       else raise exc).

(** [extra_params or {}]: [None] and the empty dictionary are falsy. *)
Definition or_empty (extra : option loc) : M loc :=
  match extra with
  | None => new_object (ODict ∅)
  | Some l =>
      d <- get_dict l ;;
      if bool_decide (d = ∅) then new_object (ODict ∅) else ret l
  end.

Definition place_market_order (symbol side : string) (quantity : float)
    (reduce_only : option bool) (extra : option loc) : M (gmap string value) :=
  extra_params <- or_empty extra ;;
  order <- new_object (OOrderRequest
             (mkOrderRequest symbol side "MARKET" quantity None "GTC" None
                             reduce_only extra_params)) ;;
  place_order order.

Definition place_limit_order (symbol side : string) (quantity price : float)
    (time_in_force : string) (reduce_only : option bool) (extra : option loc)
    : M (gmap string value) :=
  extra_params <- or_empty extra ;;
  order <- new_object (OOrderRequest
             (mkOrderRequest symbol side "LIMIT" quantity (Some price)
                             time_in_force None reduce_only extra_params)) ;;
  place_order order.

Definition place_stop_limit_order (symbol side : string)
    (quantity price stop_price : float) (time_in_force : string)
    (reduce_only : option bool) (extra : option loc) : M (gmap string value) :=
  given <- or_empty extra ;;
  d <- get_dict given ;;
  extra_params <- new_object (ODict (d ∪ {["workingType" := VStr "CONTRACT_PRICE"]})) ;;
  order <- new_object (OOrderRequest
             (mkOrderRequest symbol side "STOP" quantity (Some price)
                             time_in_force (Some stop_price) reduce_only
                             extra_params)) ;;
  place_order order.

End Bot.

(** ** The command line ([main.py]) *)

(** The text of a numeric option, as [Decimal(values)] reads it: a decimal
    (finite, infinite or NaN), or text that [Decimal] refuses with
    [InvalidOperation]. *)
Inductive decimal_text :=
| NotDecimal
| IsDecimal (d : Decimal).

(** The command line as the parser of [build_parser] reads it, argument by
    argument and in the order given: the options it declares, each with its
    value, the help option, an argument it refuses when it reaches it (an
    option without its value), and an argument it does not know, which it
    reports at the end. *)
Inductive token :=
| OptApiKey (s : string)
| OptApiSecret (s : string)
| OptSymbol (s : string)
| OptSide (s : string)
| OptType (s : string)
| OptQuantity (values : decimal_text)
| OptPrice (values : decimal_text)
| OptStopPrice (values : decimal_text)
| OptTimeInForce (s : string)
| OptReduceOnly
| OptLogFile (s : string)
| OptLogLevel (s : string)
| OptHelp
| Malformed
| Unrecognized.

Abbreviation Argv := (list token) (only parsing).

(** The [argparse.Namespace] that [parse_args] returns. *)
Record Namespace := mkNamespace {
  args_api_key : string;
  args_api_secret : string;
  args_symbol : string;
  args_side : string;
  args_order_type : string;
  args_quantity : float;
  args_price : option float;
  args_stop_price : option float;
  args_time_in_force : string;
  args_reduce_only : bool;
  args_log_file : string;
  args_log_level : string
}.

(** What an argparse action does with its value: it stores something in the
    namespace, it calls [parser.error], which leaves the process with status
    2, or it raises. *)
Inductive action_result (A : Type) :=
| Stored (a : A)
| ParserError
| ActionRaises (exc : exn).
Arguments Stored {A} a.
Arguments ParserError {A}.
Arguments ActionRaises {A} exc.

(** [decimal.InvalidOperation] *)
Definition InvalidOperation : exn_class :=
  Subclass "InvalidOperation"
    (Subclass "DecimalException" (Subclass "ArithmeticError" Exception_)).

(** [PositiveDecimal._parse_positive_decimal].  [Decimal(values)] is inside
    the [try]; the comparison [value <= 0] is not, and for a NaN it raises
    [InvalidOperation]. *)
Definition _parse_positive_decimal (values : decimal_text) : action_result Decimal :=
  match values with
  | NotDecimal => ParserError
  | IsDecimal DecNaN =>
      ActionRaises (mkExn InvalidOperation "[<class 'decimal.InvalidOperation'>]")
  | IsDecimal (DecInfinity negative) =>
      if negative then ParserError else Stored (DecInfinity negative)
  | IsDecimal (DecFinite negative m e) =>
      if negative || (m =? 0)%N then ParserError else Stored (DecFinite negative m e)
  end.

(** [PositiveDecimal.__call__]: the value stored in the namespace is
    [float(value)]. *)
Definition PositiveDecimal (values : decimal_text) : action_result float :=
  match _parse_positive_decimal values with
  | Stored value => Stored (float_of_Decimal value)
  | ParserError => ParserError
  | ActionRaises exc => ActionRaises exc
  end.

Definition choice (choices : list string) (s : string) : option string :=
  if bool_decide (s ∈ choices) then Some s else None.

(** The namespace while the arguments are read: the defaults of
    [build_parser], [None] for a required option that was not given yet. *)
Record Partial := mkPartial {
  p_api_key : option string;
  p_api_secret : option string;
  p_symbol : string;
  p_side : option string;
  p_order_type : string;
  p_quantity : option float;
  p_price : option float;
  p_stop_price : option float;
  p_time_in_force : string;
  p_reduce_only : bool;
  p_log_file : string;
  p_log_level : string;
  p_unrecognized : bool
}.

Definition defaults : Partial :=
  mkPartial None None "BTCUSDT" None "MARKET" None None None "GTC" false
            "bot.log" "INFO" false.

Inductive step :=
| Continue (st : Partial)
| Exit (status : Z)
| Raises (exc : exn).

Definition with_choice (choices : list string) (s : string)
    (store : string -> Partial) : step :=
  match choice choices s with
  | Some s' => Continue (store s')
  | None => Exit 2
  end.

Definition with_positive (values : decimal_text) (store : float -> Partial) : step :=
  match PositiveDecimal values with
  | Stored x => Continue (store x)
  | ParserError => Exit 2
  | ActionRaises exc => Raises exc
  end.

(** One argument: its action on the namespace.  A later occurrence of an
    option replaces an earlier one. *)
Definition consume (tok : token) (st : Partial) : step :=
  let '(mkPartial key secret sym sd ty q p sp tif ro lf ll un) := st in
  match tok with
  | OptApiKey s => Continue (mkPartial (Some s) secret sym sd ty q p sp tif ro lf ll un)
  | OptApiSecret s => Continue (mkPartial key (Some s) sym sd ty q p sp tif ro lf ll un)
  | OptSymbol s => Continue (mkPartial key secret s sd ty q p sp tif ro lf ll un)
  | OptSide s =>
      with_choice ["BUY"; "SELL"] s
        (fun s' => mkPartial key secret sym (Some s') ty q p sp tif ro lf ll un)
  | OptType s =>
      with_choice ["MARKET"; "LIMIT"; "STOP_LIMIT"] s
        (fun s' => mkPartial key secret sym sd s' q p sp tif ro lf ll un)
  | OptQuantity values =>
      with_positive values
        (fun x => mkPartial key secret sym sd ty (Some x) p sp tif ro lf ll un)
  | OptPrice values =>
      with_positive values
        (fun x => mkPartial key secret sym sd ty q (Some x) sp tif ro lf ll un)
  | OptStopPrice values =>
      with_positive values
        (fun x => mkPartial key secret sym sd ty q p (Some x) tif ro lf ll un)
  | OptTimeInForce s =>
      with_choice ["GTC"; "IOC"; "FOK"; "GTX"] s
        (fun s' => mkPartial key secret sym sd ty q p sp s' ro lf ll un)
  | OptReduceOnly => Continue (mkPartial key secret sym sd ty q p sp tif true lf ll un)
  | OptLogFile s => Continue (mkPartial key secret sym sd ty q p sp tif ro s ll un)
  | OptLogLevel s => Continue (mkPartial key secret sym sd ty q p sp tif ro lf s un)
  | OptHelp => Exit 0
  | Malformed => Exit 2
  | Unrecognized => Continue (mkPartial key secret sym sd ty q p sp tif ro lf ll true)
  end.

Inductive parse_result :=
| Parsed (args : Namespace)
| ParserExit (status : Z)
| ParserRaises (exc : exn).

(** The end of the command line: a required option that is missing and an
    argument that was not recognized are errors. *)
Definition complete (st : Partial) : parse_result :=
  match p_api_key st, p_api_secret st, p_side st, p_quantity st with
  | Some key, Some secret, Some sd, Some q =>
      if p_unrecognized st then ParserExit 2
      else Parsed (mkNamespace key secret (p_symbol st) sd (p_order_type st) q
                     (p_price st) (p_stop_price st) (p_time_in_force st)
                     (p_reduce_only st) (p_log_file st) (p_log_level st))
  | _, _, _, _ => ParserExit 2
  end.

Fixpoint parse_from (st : Partial) (argv : Argv) : parse_result :=
  match argv with
  | [] => complete st
  | tok :: rest =>
      match consume tok st with
      | Continue st' => parse_from st' rest
      | Exit status => ParserExit status
      | Raises exc => ParserRaises exc
      end
  end.

(** [build_parser().parse_args(argv)] *)
Definition parse_args (argv : Argv) : parse_result := parse_from defaults argv.

(** The keyword arguments of [execute_order], or the [ValueError] of its
    cross-field checks. *)
Definition build_kwargs (args : Namespace) : exn + kwargs :=
  let reduce := if args_reduce_only args then Some true else None in
  if String.eqb (args_order_type args) "LIMIT" then
    match args_price args with
    | None => inl (mkExn ValueError "--price is required for LIMIT orders")
    | Some p =>
        inr (mkKwargs (args_symbol args) (args_side args) (args_quantity args)
                      reduce (Some p) None (Some (args_time_in_force args)))
    end
  else if String.eqb (args_order_type args) "STOP_LIMIT" then
    match args_price args, args_stop_price args with
    | Some p, Some sp =>
        inr (mkKwargs (args_symbol args) (args_side args) (args_quantity args)
                      reduce (Some p) (Some sp) (Some (args_time_in_force args)))
    | _, _ =>
        inl (mkExn ValueError
               "--price and --stop-price are required for STOP_LIMIT orders")
    end
  else
    inr (mkKwargs (args_symbol args) (args_side args) (args_quantity args)
                  reduce None None None).

Inductive exit :=
| Returned (code : Z)        (* [main] returns the code *)
| SystemExit (code : Z)      (* argparse leaves the process with this status *)
| Uncaught (e : exn).        (* an exception leaves [main] *)

Definition initial_world : world := mkWorld [] [].

(** ** [configure_logging] *)

(** The handlers of the root logger. *)
Inductive handler :=
| StreamHandler (stream : string) (formatter : string)
| FileHandler (filename : string) (formatter : string).

#[global] Instance handler_eq_dec : EqDecision handler.
Proof. solve_decision. Defined.

Definition log_format : string :=
  "%(asctime)s - %(name)s - %(levelname)s - %(message)s".

(** [Logger.removeHandler]: the handler leaves the list. *)
Fixpoint removeHandler (hdlr : handler) (hs : list handler) : list handler :=
  match hs with
  | [] => []
  | h :: hs' => if decide (h = hdlr) then hs' else h :: removeHandler hdlr hs'
  end.

(** [Logger.addHandler]: a handler is not added twice. *)
Definition addHandler (hdlr : handler) (hs : list handler) : list handler :=
  if bool_decide (hdlr ∈ hs) then hs else hs ++ [hdlr].

(** An attribute of the [logging] module as [Logger.setLevel] takes it: an
    integer is a level; for anything else [setLevel] raises ([ValueError]
    for a string that names no level, such as [BASIC_FORMAT], [TypeError]
    for another object). *)
Inductive level_attr :=
| IsLevel (n : Z)
| NotLevel (exc : exn).

(** [logging.INFO] and [logging.WARNING] *)
Definition logging_INFO : Z := 20.
Definition logging_WARNING : Z := 30.

Record logger := mkLogger { handlers : list handler; logger_level : Z }.

Section Logging.

(** [getattr(logging, name)], [None] when the module has no such attribute. *)
Variable logging_attr : string -> option level_attr.

(** [logging.FileHandler(log_file)] opens the file: [None] when it does, the
    exception of [open] otherwise (an [OSError] such as
    [FileNotFoundError] or [PermissionError]). *)
Variable open_error : string -> option exn.

(** The root logger after the call, and the exception that ends the call
    early: the one of [setLevel], raised when the earlier handlers are
    removed and none is installed, or the one of [FileHandler], raised
    when the level is set and the console handler installed. *)
Definition configure_logging (log_file log_level : string) (root : logger)
    : logger * option exn :=
  let level := default (IsLevel logging_INFO) (logging_attr (upper log_level)) in
  let hs :=
    if bool_decide (handlers root = []) then handlers root
    else foldl (fun acc hdlr => removeHandler hdlr acc) (handlers root) (handlers root) in
  match level with
  | NotLevel exc => (mkLogger hs (logger_level root), Some exc)
  | IsLevel n =>
      let hs := addHandler (StreamHandler "sys.stdout" log_format) hs in
      match open_error log_file with
      | None => (mkLogger (addHandler (FileHandler log_file log_format) hs) n, None)
      | Some exc => (mkLogger hs n, Some exc)
      end
  end.

End Logging.

(** ** [execute_order] and [main] *)

Section Cli.

Variable client : gmap string value -> client_result.

(** The keyword call of each entry of [order_dispatch]: Python binds
    the keywords to the keyword-only parameters of the method, and raises
    [TypeError] for a keyword the method does not have and for a required
    one that is missing. *)
Definition call_place_market_order (kw : kwargs) : M (gmap string value) :=
  match kw_price kw, kw_stop_price kw, kw_time_in_force kw with
  | None, None, None =>
      place_market_order client (kw_symbol kw) (kw_side kw) (kw_quantity kw)
                         (kw_reduce_only kw) None
  | _, _, _ => raise (mkExn TypeError "got an unexpected keyword argument")
  end.

Definition call_place_limit_order (kw : kwargs) : M (gmap string value) :=
  match kw_price kw, kw_stop_price kw with
  | Some p, None =>
      place_limit_order client (kw_symbol kw) (kw_side kw) (kw_quantity kw) p
                        (default "GTC" (kw_time_in_force kw))
                        (kw_reduce_only kw) None
  | None, _ => raise (mkExn TypeError "missing 1 required keyword-only argument")
  | _, Some _ => raise (mkExn TypeError "got an unexpected keyword argument")
  end.

Definition call_place_stop_limit_order (kw : kwargs) : M (gmap string value) :=
  match kw_price kw, kw_stop_price kw with
  | Some p, Some sp =>
      place_stop_limit_order client (kw_symbol kw) (kw_side kw) (kw_quantity kw)
                             p sp (default "GTC" (kw_time_in_force kw))
                             (kw_reduce_only kw) None
  | _, _ => raise (mkExn TypeError "missing required keyword-only argument")
  end.

Definition order_dispatch (order_type : string)
    : option (kwargs -> M (gmap string value)) :=
  if String.eqb order_type "MARKET" then Some call_place_market_order
  else if String.eqb order_type "LIMIT" then Some call_place_limit_order
  else if String.eqb order_type "STOP_LIMIT" then Some call_place_stop_limit_order
  else None.

Definition execute_order (args : Namespace) : M (gmap string value) :=
  match build_kwargs args with
  | inl exc => raise exc
  | inr kw =>
      emit (Log DEBUG "Dispatching %s order with kwargs=%s"
                [LStr (args_order_type args); LKwargs kw]) ;;;
      match order_dispatch (args_order_type args) with
      | None => raise (mkExn KeyError (args_order_type args))
      | Some place => place kw
      end
  end.

(** [Client(api_key, api_secret, testnet=True)]: [None] when the client of
    the SDK is built, the exception it raises otherwise. *)
Variable connect : string -> string -> option exn.

(** [BasicBot.__init__]: the client is created and the bot says so. *)
Definition BasicBot_init (api_key api_secret : string) : M unit :=
  match connect api_key api_secret with
  | Some exc => raise exc
  | None => emit (Log DEBUG "Initialized BasicBot with testnet=%s" [LStr "True"])
  end.

(** The body of [main] from the creation of the bot on.  The trace keeps
    every record handed to a logger, whatever the level of the root
    logger. *)
Definition run (args : Namespace) : M Z :=
  BasicBot_init (args_api_key args) (args_api_secret args) ;;;
  outcome <- try_except
    (response <- execute_order args ;; ret (inr response))
    (fun exc =>
       if isinstance exc [BinanceAPIException; BinanceOrderException] then
         emit (Log ERROR "Binance error: %s" [LExn exc]) ;;;
         ret (inl 1%Z)
       else if isinstance exc [ValueError] then
         emit (Log ERROR "Input validation error: %s" [LExn exc]) ;;;
         ret (inl 2%Z)
       else if isinstance exc [Exception_] then
         emit (Log ERROR "Unexpected error" [LExn exc]) ;;;
         ret (inl 3%Z)
       else raise exc) ;;
  match outcome with
  | inl code => ret code
  | inr response => ret 0%Z
  end.

End Cli.

(** What [main] runs in: the exchange client's answer to an order, the
    construction of the SDK client, the [logging] module, the file system,
    and the root logger as [main] finds it. *)
Record environment := mkEnvironment {
  exchange : gmap string value -> client_result;
  connect_client : string -> string -> option exn;
  logging_module : string -> option level_attr;
  openable : string -> option exn;
  root_logger : logger
}.

(** How [main] ends: its exit, the store and the trace, the root logger. *)
Record finish := mkFinish { status : exit; after : world; root_after : logger }.

Definition main (env : environment) (argv : Argv) : finish :=
  match parse_args argv with
  | ParserExit code => mkFinish (SystemExit code) initial_world (root_logger env)
  | ParserRaises exc => mkFinish (Uncaught exc) initial_world (root_logger env)
  | Parsed args =>
      match configure_logging (logging_module env) (openable env)
              (args_log_file args) (args_log_level args) (root_logger env) with
      | (root, Some exc) => mkFinish (Uncaught exc) initial_world root
      | (root, None) =>
          match run (exchange env) (connect_client env) args initial_world with
          | Ret code w => mkFinish (Returned code) w root
          | Raise exc w => mkFinish (Uncaught exc) w root
          end
      end
  end.

(** The parameter dictionaries handed to the exchange client, in order. *)
Definition order_calls (w : world) : list (gmap string value) :=
  omap (fun ev => match ev with CreateOrder d => Some d | Log _ _ _ => None end)
       (trace w).

(** ** The contents of the request parameters *)

(** The entries [to_request_params] has put in [params] when it reaches
    [params.update(self.extra_params)]. *)
Definition computed_params (o : OrderRequest) : gmap string value :=
  let params : gmap string value :=
    <["symbol" := VStr (upper (symbol o))]>
    (<["side" := VStr (upper (side o))]>
    (<["type" := VStr (upper (order_type o))]>
    (<["quantity" := VFloat (quantity o)]> ∅))) in
  let params :=
    match price o with
    | Some p => <["price" := VFloat p]> params
    | None => params
    end in
  let params :=
    if takes_time_in_force (upper (order_type o))
    then <["timeInForce" := VStr (time_in_force o)]> params
    else params in
  let params :=
    match stop_price o with
    | Some p => <["stopPrice" := VFloat p]> params
    | None => params
    end in
  match reduce_only o with
  | Some b => <["reduceOnly" := VBool b]> params
  | None => params
  end.

(** The computed keys one by one: what each of them is bound to before the
    extra parameters are merged, [None] for a key that is left out. *)
Definition computed_entry (o : OrderRequest) (k : string) : option value :=
  if decide (k = "symbol") then Some (VStr (upper (symbol o)))
  else if decide (k = "side") then Some (VStr (upper (side o)))
  else if decide (k = "type") then Some (VStr (upper (order_type o)))
  else if decide (k = "quantity") then Some (VFloat (quantity o))
  else if decide (k = "price") then VFloat <$> price o
  else if decide (k = "timeInForce") then
    if takes_time_in_force (upper (order_type o))
    then Some (VStr (time_in_force o)) else None
  else if decide (k = "stopPrice") then VFloat <$> stop_price o
  else if decide (k = "reduceOnly") then VBool <$> reduce_only o
  else None.

(** A store in which [self] is an [OrderRequest] whose [extra_params] is the
    dictionary [extra]. *)
Definition holds_order (w : world) (self : loc) (o : OrderRequest)
    (extra : gmap string value) : Prop :=
  heap w !! self = Some (OOrderRequest o) /\
  heap w !! extra_params o = Some (ODict extra).

(** ** Summaries of the runs *)

(** The store and the trace a computation ends with, returned or raised. *)
Definition final_world {A} (r : result A) : world :=
  match r with
  | Ret _ w => w
  | Raise _ w => w
  end.

(** The records [place_order] writes when the client call fails: one for an
    exception below [Exception], none for one that passes both handlers. *)
Definition failure_records (exc : exn) : list event :=
  if isinstance exc [BinanceAPIException; BinanceOrderException]
  then [Log ERROR "Binance API error: %s" [LExn exc]]
  else if isinstance exc [Exception_]
  then [Log ERROR "Unexpected error when placing order: %s" [LExn exc]]
  else [].

(** The exit code [main] returns for an exception below [Exception] raised
    during dispatch. *)
Definition exit_code (exc : exn) : Z :=
  if isinstance exc [BinanceAPIException; BinanceOrderException] then 1%Z
  else if isinstance exc [ValueError] then 2%Z
  else 3%Z.

(** The record [main] writes for it. *)
Definition main_record (exc : exn) : event :=
  if isinstance exc [BinanceAPIException; BinanceOrderException]
  then Log ERROR "Binance error: %s" [LExn exc]
  else if isinstance exc [ValueError]
  then Log ERROR "Input validation error: %s" [LExn exc]
  else Log ERROR "Unexpected error" [LExn exc].

(** The [try] statement of [main] around a finished dispatch. *)
Definition handled (r : result (gmap string value)) : result Z :=
  match r with
  | Ret _ w => Ret 0%Z w
  | Raise exc w =>
      if isinstance exc [Exception_]
      then Ret (exit_code exc) (mkWorld (heap w) (trace w ++ [main_record exc]))
      else Raise exc w
  end.

(** The world in which [execute_order] starts: nothing allocated, the
    bot's own start-up record written. *)
Definition started : world :=
  mkWorld [] [Log DEBUG "Initialized BasicBot with testnet=%s" [LStr "True"]].

(** The order the command line asks for, and the extra parameters the
    convenience method attaches to it. *)
Definition cli_reduce_only (args : Namespace) : option bool :=
  if args_reduce_only args then Some true else None.

Definition market_request (args : Namespace) : OrderRequest :=
  mkOrderRequest (args_symbol args) (args_side args) "MARKET" (args_quantity args)
                 None "GTC" None (cli_reduce_only args) 0.

Definition limit_request (args : Namespace) (p : float) : OrderRequest :=
  mkOrderRequest (args_symbol args) (args_side args) "LIMIT" (args_quantity args)
                 (Some p) (args_time_in_force args) None (cli_reduce_only args) 0.

Definition stop_limit_request (args : Namespace) (p sp : float) : OrderRequest :=
  mkOrderRequest (args_symbol args) (args_side args) "STOP" (args_quantity args)
                 (Some p) (args_time_in_force args) (Some sp) (cli_reduce_only args) 1.

Definition working_type : gmap string value :=
  {["workingType" := VStr "CONTRACT_PRICE"]}.

(** The trace of a dispatch that reaches [place_order] with the request
    parameters [sent]. *)
Definition dispatched (client : gmap string value -> client_result)
    (args : Namespace) (kw : kwargs) (h : list object)
    (sent : gmap string value) : result (gmap string value) :=
  let shown := delete "signature" sent in
  let t := trace started
           ++ [Log DEBUG "Dispatching %s order with kwargs=%s"
                   [LStr (args_order_type args); LKwargs kw];
               Log INFO "Sending order request: %s" [LDict shown];
               CreateOrder sent] in
  match client sent with
  | Response r =>
      Ret r (mkWorld (h ++ [ODict sent; ODict shown])
                     (t ++ [Log INFO "Order response: %s" [LDict r]]))
  | Failure exc =>
      Raise exc (mkWorld (h ++ [ODict sent; ODict shown]) (t ++ failure_records exc))
  end.

(** What stops [main] between the parse and the [try] statement: the
    exception of [configure_logging], or else the one of the SDK client's
    construction; [None] when the dispatch is reached. *)
Definition set_up_error (env : environment) (args : Namespace) : option exn :=
  match snd (configure_logging (logging_module env) (openable env)
               (args_log_file args) (args_log_level args) (root_logger env)) with
  | Some exc => Some exc
  | None => connect_client env (args_api_key args) (args_api_secret args)
  end.

Definition reaches_dispatch (env : environment) (args : Namespace) : Prop :=
  set_up_error env args = None.

(** ** Sample inputs *)

Definition one : float := float_of_Decimal (DecFinite false 1 0).
Definition hundred : float := float_of_Decimal (DecFinite false 100 0).
Definition ninety_five : float := float_of_Decimal (DecFinite false 95 0).

(** A store with one dictionary at reference 0 and one order, which takes
    that dictionary as its [extra_params], at reference 1. *)
Definition store_of (extra : gmap string value) (o : OrderRequest) : world :=
  mkWorld [ODict extra; OOrderRequest o] [].

Definition limit_order : OrderRequest :=
  mkOrderRequest "btcusdt" "buy" "limit" one (Some hundred) "GTC" None None 0.

Definition market_order : OrderRequest :=
  mkOrderRequest "btcusdt" "buy" "MARKET" one None "GTC" None None 0.

Definition extra_symbol : gmap string value := {["symbol" := VStr "ETHUSDT"]}.
Definition extra_time_in_force : gmap string value := {["timeInForce" := VStr "GTC"]}.
Definition extra_reduce_only : gmap string value := {["reduceOnly" := VBool true]}.
Definition extra_symbol_price : gmap string value :=
  <["symbol" := VStr "ethusdt"]> {["price" := VNone]}.

Definition extra_signature : gmap string value :=
  <["signature" := VStr "3a5f"]> {["newClientOrderId" := VStr "x-1"]}.

Definition accepting_client (params : gmap string value) : client_result :=
  Response (<["orderId" := VInt 1]> (<["status" := VStr "NEW"]> params)).

Definition rejecting_client (params : gmap string value) : client_result :=
  Failure (mkExn BinanceAPIException "APIError(code=-2019): Margin is insufficient.").

Definition interrupted_client (params : gmap string value) : client_result :=
  Failure (mkExn (BaseOnly "KeyboardInterrupt") "").

Definition decimal_1 : decimal_text := IsDecimal (DecFinite false 1 0).
Definition decimal_100 : decimal_text := IsDecimal (DecFinite false 100 0).
Definition decimal_95 : decimal_text := IsDecimal (DecFinite false 95 0).

Definition stop_limit_argv : Argv :=
  [OptApiKey "key"; OptApiSecret "secret"; OptSymbol "ethusdt"; OptSide "SELL";
   OptType "STOP_LIMIT"; OptPrice decimal_100; OptStopPrice decimal_95;
   OptQuantity decimal_1].

Definition stop_limit_args : Namespace :=
  mkNamespace "key" "secret" "ethusdt" "SELL" "STOP_LIMIT" one (Some hundred)
              (Some ninety_five) "GTC" false "bot.log" "INFO".

Definition limit_without_price_argv : Argv :=
  [OptApiKey "key"; OptApiSecret "secret"; OptSide "BUY"; OptType "LIMIT";
   OptQuantity decimal_1].

Definition limit_without_price_args : Namespace :=
  mkNamespace "key" "secret" "BTCUSDT" "BUY" "LIMIT" one None None "GTC" false
              "bot.log" "INFO".

Definition market_with_prices_argv : Argv :=
  [OptApiKey "key"; OptApiSecret "secret"; OptSide "BUY"; OptQuantity decimal_1;
   OptPrice decimal_100; OptStopPrice decimal_95; OptReduceOnly].

Definition market_with_prices_args : Namespace :=
  mkNamespace "key" "secret" "BTCUSDT" "BUY" "MARKET" one (Some hundred)
              (Some ninety_five) "GTC" true "bot.log" "INFO".

Definition market_argv : Argv :=
  [OptApiKey "key"; OptApiSecret "secret"; OptSide "BUY"; OptType "MARKET";
   OptQuantity decimal_1].

Definition market_args : Namespace :=
  mkNamespace "key" "secret" "BTCUSDT" "BUY" "MARKET" one None None "GTC" false
              "bot.log" "INFO".

Definition market_refused_price_argv : Argv :=
  market_argv ++ [OptPrice (IsDecimal (DecFinite true 5 0))].

(** A [logging] module with its levels and its [BASIC_FORMAT] string. *)
Definition sample_logging (name : string) : option level_attr :=
  if String.eqb name "DEBUG" then Some (IsLevel 10)
  else if String.eqb name "INFO" then Some (IsLevel 20)
  else if String.eqb name "WARNING" then Some (IsLevel 30)
  else if String.eqb name "ERROR" then Some (IsLevel 40)
  else if String.eqb name "CRITICAL" then Some (IsLevel 50)
  else if String.eqb name "BASIC_FORMAT"
  then Some (NotLevel (mkExn ValueError "Unknown level"))
  else None.

Definition fresh_logger : logger := mkLogger [] logging_WARNING.

(** [FileNotFoundError], as [open] raises it. *)
Definition no_such_file : exn :=
  mkExn (Subclass "FileNotFoundError" (Subclass "OSError" Exception_))
        "[Errno 2] No such file or directory".

(** An environment in which every log file can be opened, or none. *)
Definition env_of (client : gmap string value -> client_result)
    (writable : bool) : environment :=
  mkEnvironment client (fun _ _ => None) sample_logging
                (fun _ => if writable then None else Some no_such_file)
                fresh_logger.

(** ** Runs of the convenience methods *)

(** The optional [extra_params] argument of a convenience method, and the
    entries it carries: none when the argument is [None]. *)
Definition extra_given (w : world) (extra : option loc)
    (d : gmap string value) : Prop :=
  match extra with
  | None => d = ∅
  | Some l => heap w !! l = Some (ODict d)
  end.

(** The end of a run that started in [w], created the objects [new] and
    then the two parameter dictionaries, and called the client with
    [sent]. *)
Definition placed (client : gmap string value -> client_result) (w : world)
    (new : list object) (sent : gmap string value) : result (gmap string value) :=
  let shown := delete "signature" sent in
  let h := heap w ++ new ++ [ODict sent; ODict shown] in
  let t := trace w ++ [Log INFO "Sending order request: %s" [LDict shown];
                       CreateOrder sent] in
  match client sent with
  | Response r => Ret r (mkWorld h (t ++ [Log INFO "Order response: %s" [LDict r]]))
  | Failure exc => Raise exc (mkWorld h (t ++ failure_records exc))
  end.

(** The keys [to_request_params] always sets, and all the keys it can set. *)
Definition required_keys : gset string :=
  {["symbol"; "side"; "type"; "quantity"]}.

Definition computed_keys : gset string :=
  {["symbol"; "side"; "type"; "quantity"; "price"; "timeInForce"; "stopPrice";
    "reduceOnly"]}.

(** The [reduceOnly] entry of a command-line order. *)
Definition with_reduce_only (flag : bool) (d : gmap string value)
    : gmap string value :=
  if flag then <["reduceOnly" := VBool true]> d else d.

(** ** What a run of an order method shows *)

(** The run hands the client's answer on as it is: its response is
    returned, its exception is raised. *)
Definition relays (client : gmap string value -> client_result)
    (sent : gmap string value) (r : result (gmap string value)) : Prop :=
  match client sent with
  | Response resp => exists w', r = Ret resp w'
  | Failure exc => exists w', r = Raise exc w'
  end.

(** The run calls the client once, with [sent]. *)
Definition calls_once (w : world) (sent : gmap string value)
    (r : result (gmap string value)) : Prop :=
  order_calls (final_world r) = order_calls w ++ [sent].

(** The run leaves every object of [w] as it was. *)
Definition keeps_store (w : world) (r : result (gmap string value)) : Prop :=
  forall l, is_Some (heap w !! l) -> heap (final_world r) !! l = heap w !! l.

(** ** What the parser and [PositiveDecimal] let through *)

(** The decimals [PositiveDecimal] stores: the positive ones, the positive
    infinity among them. *)
Definition positive_decimal (d : Decimal) : Prop :=
  match d with
  | DecFinite negative m _ => negative = false /\ m <> 0%N
  | DecInfinity negative => negative = false
  | DecNaN => False
  end.

(** The floats it stores. *)
Definition accepted_float (x : float) : Prop :=
  exists d, positive_decimal d /\ x = float_of_Decimal d.





(** The namespaces the parser returns. *)
Definition namespace_ok (args : Namespace) : Prop :=
  args_side args ∈ ["BUY"; "SELL"] /\
  args_order_type args ∈ ["MARKET"; "LIMIT"; "STOP_LIMIT"] /\
  args_time_in_force args ∈ ["GTC"; "IOC"; "FOK"; "GTX"] /\
  accepted_float (args_quantity args) /\
  (forall p, args_price args = Some p -> accepted_float p) /\
  (forall sp, args_stop_price args = Some sp -> accepted_float sp).

(** ** Further sample inputs *)

Definition upper_limit_order : OrderRequest :=
  mkOrderRequest "BTCUSDT" "BUY" "LIMIT" one (Some hundred) "GTC" None None 0.

Definition stop_limit_without_stop_argv : Argv :=
  [OptApiKey "key"; OptApiSecret "secret"; OptSide "SELL"; OptType "STOP_LIMIT";
   OptQuantity decimal_1; OptPrice decimal_100].

Definition stop_limit_without_stop_args : Namespace :=
  mkNamespace "key" "secret" "BTCUSDT" "SELL" "STOP_LIMIT" one (Some hundred)
              None "GTC" false "bot.log" "INFO".

Definition limit_argv : Argv :=
  [OptApiKey "key"; OptApiSecret "secret"; OptSymbol "ethusdt"; OptSide "BUY";
   OptType "LIMIT"; OptQuantity (IsDecimal (DecFinite false 2 0));
   OptPrice decimal_100; OptStopPrice decimal_95; OptTimeInForce "IOC";
   OptReduceOnly].

Definition limit_args : Namespace :=
  mkNamespace "key" "secret" "ethusdt" "BUY" "LIMIT"
              (float_of_Decimal (DecFinite false 2 0)) (Some hundred)
              (Some ninety_five) "IOC" true "bot.log" "INFO".

Definition extra_working_type : gmap string value :=
  <["workingType" := VStr "MARK_PRICE"]> {["newClientOrderId" := VStr "x-1"]}.

(** A store that holds one dictionary, at reference 0. *)
Definition store_with (d : gmap string value) : world := mkWorld [ODict d] [].

Definition unknown_type_args : Namespace :=
  mkNamespace "key" "secret" "BTCUSDT" "BUY" "STOP" one None None "GTC" false
              "bot.log" "INFO".

Definition earlier_handlers : list handler :=
  [StreamHandler "sys.stderr" "%(message)s"; FileHandler "old.log" "%(message)s";
   StreamHandler "sys.stderr" "%(message)s"].

(** ** What the command line gives for each option *)

(** The value a token gives for an option, option by option. *)
Definition given_api_key (tok : token) : option string :=
  match tok with OptApiKey s => Some s | _ => None end.
Definition given_api_secret (tok : token) : option string :=
  match tok with OptApiSecret s => Some s | _ => None end.
Definition given_symbol (tok : token) : option string :=
  match tok with OptSymbol s => Some s | _ => None end.
Definition given_side (tok : token) : option string :=
  match tok with OptSide s => Some s | _ => None end.
Definition given_type (tok : token) : option string :=
  match tok with OptType s => Some s | _ => None end.
Definition given_quantity (tok : token) : option decimal_text :=
  match tok with OptQuantity values => Some values | _ => None end.
Definition given_price (tok : token) : option decimal_text :=
  match tok with OptPrice values => Some values | _ => None end.
Definition given_stop_price (tok : token) : option decimal_text :=
  match tok with OptStopPrice values => Some values | _ => None end.
Definition given_time_in_force (tok : token) : option string :=
  match tok with OptTimeInForce s => Some s | _ => None end.
Definition given_log_file (tok : token) : option string :=
  match tok with OptLogFile s => Some s | _ => None end.
Definition given_log_level (tok : token) : option string :=
  match tok with OptLogLevel s => Some s | _ => None end.

#[global] Instance Decimal_eq_dec : EqDecision Decimal.
Proof. solve_decision. Defined.

#[global] Instance decimal_text_eq_dec : EqDecision decimal_text.
Proof. solve_decision. Defined.

#[global] Instance token_eq_dec : EqDecision token.
Proof. solve_decision. Defined.

(** The last value the command line gives for an option, [None] when the
    option is not on it. *)
Definition last_given {A} (given : token -> option A) (argv : Argv) : option A :=
  last (omap given argv).

(** The float [PositiveDecimal] stores for a value, when it stores one. *)
Definition stored (values : decimal_text) : option float :=
  match PositiveDecimal values with
  | Stored x => Some x
  | _ => None
  end.

(** What the namespace holds when the parser has read [argv], starting
    from [st]: for each option the last value given, or else what [st]
    has. *)
Definition reads (st : Partial) (argv : Argv) (args : Namespace) : Prop :=
  Some (args_api_key args)
    = from_option Some (p_api_key st) (last_given given_api_key argv) /\
  Some (args_api_secret args)
    = from_option Some (p_api_secret st) (last_given given_api_secret argv) /\
  args_log_file args = default (p_log_file st) (last_given given_log_file argv) /\
  args_log_level args
    = default (p_log_level st) (last_given given_log_level argv) /\
  args_symbol args = default (p_symbol st) (last_given given_symbol argv) /\
  Some (args_side args)
    = from_option Some (p_side st) (last_given given_side argv) /\
  args_order_type args = default (p_order_type st) (last_given given_type argv) /\
  Some (args_quantity args)
    = from_option stored (p_quantity st) (last_given given_quantity argv) /\
  args_price args = from_option stored (p_price st) (last_given given_price argv) /\
  args_stop_price args
    = from_option stored (p_stop_price st) (last_given given_stop_price argv) /\
  args_time_in_force args
    = default (p_time_in_force st) (last_given given_time_in_force argv) /\
  args_reduce_only args = p_reduce_only st || bool_decide (OptReduceOnly ∈ argv).

(** The values a namespace under construction may hold. *)
Definition partial_ok (st : Partial) : Prop :=
  (forall s, p_side st = Some s -> s ∈ ["BUY"; "SELL"]) /\
  p_order_type st ∈ ["MARKET"; "LIMIT"; "STOP_LIMIT"] /\
  p_time_in_force st ∈ ["GTC"; "IOC"; "FOK"; "GTX"] /\
  (forall x, p_quantity st = Some x -> accepted_float x) /\
  (forall x, p_price st = Some x -> accepted_float x) /\
  (forall x, p_stop_price st = Some x -> accepted_float x).

(** The namespace with other values for [--price] and [--stop-price]. *)
Definition with_prices (price stop_price : option float) (args : Namespace)
    : Namespace :=
  mkNamespace (args_api_key args) (args_api_secret args) (args_symbol args)
              (args_side args) (args_order_type args) (args_quantity args)
              price stop_price (args_time_in_force args) (args_reduce_only args)
              (args_log_file args) (args_log_level args).





(** The exception that leaves [parse_args] for a NaN. *)
Definition nan_error : exn :=
  mkExn InvalidOperation "[<class 'decimal.InvalidOperation'>]".

(** What [configure_logging] hands to [setLevel]: the attribute of the
    [logging] module named by the upper-cased [log_level], [logging.INFO]
    when there is none. *)
Definition level_given (logging_attr : string -> option level_attr)
    (log_level : string) : level_attr :=
  default (IsLevel logging_INFO) (logging_attr (upper log_level)).

Definition bad_level_argv : Argv := market_argv ++ [OptLogLevel "basic_format"].
(** * Properties *)

(** ** The store operations on a dictionary that was just created *)

Lemma heap_lookup_last (h : list object) (x : object) :
  (h ++ [x]) !! length h = Some x.
Proof. by apply list_lookup_middle. Qed.

Lemma heap_insert_last (h : list object) (x y : object) :
  <[length h := y]> (h ++ [x]) = h ++ [y].
Proof.
  replace (length h) with (length h + 0) by lia.
  by rewrite insert_app_r.
Qed.

Lemma heap_lookup_old (h : list object) (x : object) (l : loc) :
  is_Some (h !! l) -> (h ++ [x]) !! l = h !! l.
Proof. intros Hl. apply lookup_app_l. by apply lookup_lt_is_Some. Qed.

Lemma dict_setitem_last h t d k v :
  dict_setitem (length h) k v (mkWorld (h ++ [ODict d]) t)
  = Ret tt (mkWorld (h ++ [ODict (<[k := v]> d)]) t).
Proof.
  unfold dict_setitem, bind, get_dict, put_dict; simpl.
  rewrite heap_lookup_last; simpl. by rewrite heap_insert_last.
Qed.

Lemma dict_pop_last h t d k :
  dict_pop (length h) k (mkWorld (h ++ [ODict d]) t)
  = Ret tt (mkWorld (h ++ [ODict (delete k d)]) t).
Proof.
  unfold dict_pop, bind, get_dict, put_dict; simpl.
  rewrite heap_lookup_last; simpl. by rewrite heap_insert_last.
Qed.

Lemma dict_update_last h t d other extra :
  h !! other = Some (ODict extra) ->
  dict_update (length h) other (mkWorld (h ++ [ODict d]) t)
  = Ret tt (mkWorld (h ++ [ODict (extra ∪ d)]) t).
Proof.
  intros Ho. unfold dict_update, bind, get_dict, put_dict; simpl.
  rewrite heap_lookup_old by (by rewrite Ho).
  rewrite Ho; simpl. rewrite heap_lookup_last; simpl.
  by rewrite heap_insert_last.
Qed.

Lemma dict_copy_run h t l d :
  h !! l = Some (ODict d) ->
  dict_copy l (mkWorld h t) = Ret (length h) (mkWorld (h ++ [ODict d]) t).
Proof.
  intros Hl. unfold dict_copy, bind, get_dict, new_object; simpl. by rewrite Hl.
Qed.

(** ** What the two functions of [basic_bot.py] on dictionaries compute *)

Lemma to_request_params_run w self o extra :
  holds_order w self o extra ->
  to_request_params self w
  = Ret (length (heap w))
        (mkWorld (heap w ++ [ODict (extra ∪ computed_params o)]) (trace w)).
Proof.
  intros [Hself Hextra]. destruct w as [h t]; simpl in *.
  unfold to_request_params, computed_params.
  unfold bind at 1. unfold get_order; simpl. rewrite Hself.
  unfold bind at 1. unfold new_object; simpl.
  destruct (price o) as [p|], (takes_time_in_force (upper (order_type o))),
    (stop_price o) as [sp|], (reduce_only o) as [b|];
    unfold bind, when, ret;
    rewrite ?dict_setitem_last;
    by rewrite (dict_update_last _ _ _ _ _ Hextra).
Qed.

Lemma request_params_of_eq w self o extra :
  holds_order w self o extra ->
  request_params_of w self = Some (extra ∪ computed_params o).
Proof.
  intros Hw. unfold request_params_of.
  rewrite (to_request_params_run _ _ _ _ Hw); simpl.
  by rewrite heap_lookup_last.
Qed.

Lemma sanitize_run w params d :
  heap w !! params = Some (ODict d) ->
  _sanitize_for_logging params w
  = Ret (length (heap w))
        (mkWorld (heap w ++ [ODict (delete "signature" d)]) (trace w)).
Proof.
  intros Hp. destruct w as [h t]; simpl in *.
  unfold _sanitize_for_logging, bind at 1.
  rewrite (dict_copy_run _ _ _ _ Hp).
  unfold bind. by rewrite dict_pop_last.
Qed.

Lemma computed_params_lookup o k :
  computed_params o !! k = computed_entry o k.
Proof.
  unfold computed_params, computed_entry.
  destruct (price o) as [p|], (takes_time_in_force (upper (order_type o))),
    (stop_price o) as [sp|], (reduce_only o) as [b|];
    repeat case_decide; subst; simpl;
    by repeat first [ rewrite lookup_insert_eq
                    | rewrite lookup_insert_ne by done
                    | rewrite lookup_empty ].
Qed.

(** The merge [params.update(extra)], key by key. *)
Lemma merged_lookup (extra : gmap string value) o k :
  (extra ∪ computed_params o) !! k
  = match extra !! k with
    | Some v => Some v
    | None => computed_entry o k
    end.
Proof.
  rewrite lookup_union, computed_params_lookup.
  by destruct (extra !! k), (computed_entry o k).
Qed.

(** ** One run of [place_order] *)

Lemma isinstance_Exception exc :
  isinstance exc [Exception_] = derives_from_Exception (exn_cls exc).
Proof. unfold isinstance; simpl. rewrite orb_false_r. by destruct (exn_cls exc). Qed.

Lemma place_order_run client w order o extra :
  holds_order w order o extra ->
  let sent := extra ∪ computed_params o in
  let shown := delete "signature" sent in
  let h := heap w ++ [ODict sent; ODict shown] in
  let t := trace w ++ [Log INFO "Sending order request: %s" [LDict shown];
                       CreateOrder sent] in
  place_order client order w
  = match client sent with
    | Response r => Ret r (mkWorld h (t ++ [Log INFO "Order response: %s" [LDict r]]))
    | Failure exc => Raise exc (mkWorld h (t ++ failure_records exc))
    end.
Proof.
  intros Hw sent shown h t. unfold place_order.
  unfold bind at 1. rewrite (to_request_params_run _ _ _ _ Hw).
  unfold bind at 1.
  rewrite (sanitize_run _ _ (extra ∪ computed_params o))
    by (simpl; apply heap_lookup_last).
  fold sent; simpl. fold shown.
  assert (Hh : (heap w ++ [ODict sent]) ++ [ODict shown] = h)
    by (unfold h; by rewrite <- app_assoc).
  rewrite length_app, Hh; simpl.
  assert (Hshown : h !! (length (heap w) + 1) = Some (ODict shown)).
  { rewrite <- Hh. replace (length (heap w) + 1) with (length (heap w ++ [ODict sent])).
    - apply heap_lookup_last.
    - rewrite length_app; simpl; lia. }
  assert (Hsent : h !! length (heap w) = Some (ODict sent)).
  { unfold h. by apply list_lookup_middle. }
  unfold bind at 1, get_dict at 1; simpl. rewrite Hshown.
  unfold bind at 1, emit at 1; simpl.
  unfold try_except, bind at 1, get_dict at 1; simpl. rewrite Hsent.
  unfold failure_records, t, isinstance; simpl.
  unfold bind at 1, futures_create_order; simpl.
  destruct (client sent) as [r|exc].
  - unfold bind, emit, ret; simpl. by rewrite <- !app_assoc.
  - destruct (issubclass (exn_cls exc) BinanceAPIException
              || (issubclass (exn_cls exc) BinanceOrderException || false));
      [|destruct (issubclass (exn_cls exc) Exception_ || false)];
      unfold bind, emit, raise; simpl; rewrite <- ?app_assoc; simpl; done.
Qed.

(** ** The computed keys *)

Lemma computed_symbol o : computed_entry o "symbol" = Some (VStr (upper (symbol o))).
Proof. reflexivity. Qed.

Lemma computed_side o : computed_entry o "side" = Some (VStr (upper (side o))).
Proof. reflexivity. Qed.

Lemma computed_price o : computed_entry o "price" = VFloat <$> price o.
Proof. reflexivity. Qed.

Lemma computed_stopPrice o : computed_entry o "stopPrice" = VFloat <$> stop_price o.
Proof. reflexivity. Qed.

Lemma computed_reduceOnly o : computed_entry o "reduceOnly" = VBool <$> reduce_only o.
Proof. reflexivity. Qed.

Lemma computed_timeInForce o :
  computed_entry o "timeInForce"
  = if takes_time_in_force (upper (order_type o))
    then Some (VStr (time_in_force o)) else None.
Proof. reflexivity. Qed.

Lemma holds_order_store_of extra o :
  extra_params o = 0 -> holds_order (store_of extra o) 1 o extra.
Proof. intros He. split; [reflexivity | by rewrite He]. Qed.

(** ** Claims on [to_request_params] *)

(** C2 (as stated, refuted): a MARKET order whose [extra_params] carries
    [timeInForce] has [timeInForce] in its request parameters. *)
Lemma market_timeInForce_counterexample :
  order_type market_order = "MARKET" /\
  exists d, request_params_of (store_of extra_time_in_force market_order) 1 = Some d /\
            d !! "timeInForce" = Some (VStr "GTC").
Proof.
  split; [reflexivity|].
  eexists; split.
  - apply request_params_of_eq. by apply holds_order_store_of.
  - by rewrite merged_lookup.
Qed.

(** C2 (amended): the request parameters of every OrderRequest contain
    [timeInForce] when the upper-cased order type is LIMIT, STOP,
    STOP_MARKET or STOP_LIMIT; when it is MARKET they contain [timeInForce]
    exactly when [extra_params] has that key, so never when it does not. *)
Theorem timeInForce_presence w self o extra :
  holds_order w self o extra ->
  exists d, request_params_of w self = Some d /\
    (upper (order_type o) ∈ ["LIMIT"; "STOP"; "STOP_MARKET"; "STOP_LIMIT"] ->
       is_Some (d !! "timeInForce")) /\
    (upper (order_type o) = "MARKET" ->
       (is_Some (d !! "timeInForce") <-> is_Some (extra !! "timeInForce"))).
Proof.
  intros Hw. eexists; split; [by apply request_params_of_eq|].
  rewrite merged_lookup, computed_timeInForce. split.
  - intros Hin. destruct (extra !! "timeInForce"); [by eexists|].
    unfold takes_time_in_force. rewrite bool_decide_eq_true_2 by done. by eexists.
  - intros ->. destruct (extra !! "timeInForce") as [v|]; simpl.
    + split; by eexists.
    + split; intros [? ?]; done.
Qed.

Lemma timeInForce_presence_witness :
  holds_order (store_of extra_symbol limit_order) 1 limit_order extra_symbol /\
  exists d, request_params_of (store_of extra_symbol limit_order) 1 = Some d /\
    (upper (order_type limit_order) ∈ ["LIMIT"; "STOP"; "STOP_MARKET"; "STOP_LIMIT"] ->
       is_Some (d !! "timeInForce")) /\
    (upper (order_type limit_order) = "MARKET" ->
       (is_Some (d !! "timeInForce") <-> is_Some (extra_symbol !! "timeInForce"))).
Proof.
  split.
  - apply holds_order_store_of. reflexivity.
  - apply (timeInForce_presence (store_of extra_symbol limit_order) 1 limit_order
             extra_symbol).
    apply holds_order_store_of. reflexivity.
Defined.

(** C3 (as stated, refuted): an order whose [reduce_only] is unset and whose
    [extra_params] carries [reduceOnly] has [reduceOnly] in its request
    parameters. *)
Lemma reduceOnly_unset_counterexample :
  reduce_only market_order = None /\
  exists d, request_params_of (store_of extra_reduce_only market_order) 1 = Some d /\
            d !! "reduceOnly" = Some (VBool true).
Proof.
  split; [reflexivity|].
  eexists; split.
  - apply request_params_of_eq. by apply holds_order_store_of.
  - by rewrite merged_lookup.
Qed.

(** C3 (amended): the request parameters of every OrderRequest contain
    [reduceOnly] if and only if the [reduce_only] field was set (to true or
    to false) or [extra_params] has the key [reduceOnly]; when
    [extra_params] does not have it, [reduceOnly] is bound to the field's
    value if the field is set and is absent if it is unset. *)
Theorem reduceOnly_presence w self o extra :
  holds_order w self o extra ->
  exists d, request_params_of w self = Some d /\
    (is_Some (d !! "reduceOnly")
       <-> is_Some (reduce_only o) \/ is_Some (extra !! "reduceOnly")) /\
    (extra !! "reduceOnly" = None -> d !! "reduceOnly" = VBool <$> reduce_only o).
Proof.
  intros Hw. eexists; split; [by apply request_params_of_eq|].
  rewrite merged_lookup, computed_reduceOnly. split.
  - destruct (extra !! "reduceOnly") as [v|], (reduce_only o) as [b|]; simpl;
      (split; [intros [? ?] | intros [[? ?]|[? ?]]]); simplify_eq; eauto.
  - by intros ->.
Qed.

Lemma reduceOnly_presence_witness :
  holds_order (store_of extra_symbol limit_order) 1 limit_order extra_symbol /\
  exists d, request_params_of (store_of extra_symbol limit_order) 1 = Some d /\
    (is_Some (d !! "reduceOnly")
       <-> is_Some (reduce_only limit_order) \/ is_Some (extra_symbol !! "reduceOnly")) /\
    (extra_symbol !! "reduceOnly" = None ->
       d !! "reduceOnly" = VBool <$> reduce_only limit_order).
Proof.
  split.
  - apply holds_order_store_of. reflexivity.
  - apply (reduceOnly_presence (store_of extra_symbol limit_order) 1 limit_order
             extra_symbol).
    apply holds_order_store_of. reflexivity.
Defined.

(** C4: every key of [extra_params] is bound, in the request parameters, to
    its [extra_params] value, computed key or not; every other key is bound
    as computed ([computed_entry] lists the computed keys and their values). *)
Theorem extra_params_override w self o extra :
  holds_order w self o extra ->
  exists d, request_params_of w self = Some d /\
    (forall k v, extra !! k = Some v -> d !! k = Some v) /\
    (forall k, extra !! k = None -> d !! k = computed_entry o k).
Proof.
  intros Hw. eexists; split; [by apply request_params_of_eq|].
  split; intros k; rewrite merged_lookup.
  - by intros v ->.
  - by intros ->.
Qed.

Lemma extra_params_override_witness :
  holds_order (store_of extra_symbol limit_order) 1 limit_order extra_symbol /\
  exists d, request_params_of (store_of extra_symbol limit_order) 1 = Some d /\
    (forall k v, extra_symbol !! k = Some v -> d !! k = Some v) /\
    (forall k, extra_symbol !! k = None -> d !! k = computed_entry limit_order k).
Proof.
  split.
  - apply holds_order_store_of. reflexivity.
  - apply (extra_params_override (store_of extra_symbol limit_order) 1 limit_order
             extra_symbol).
    apply holds_order_store_of. reflexivity.
Defined.

(** C6 (as stated, refuted): with [extra_params = {"symbol": "ethusdt",
    "price": None}] the [symbol] entry is not the upper-cased [symbol] field,
    and [price] is present, with a null value, although the field is unset. *)
Lemma symbol_price_counterexample :
  price market_order = None /\
  exists d, request_params_of (store_of extra_symbol_price market_order) 1 = Some d /\
            d !! "symbol" = Some (VStr "ethusdt") /\
            d !! "symbol" <> Some (VStr (upper (symbol market_order))) /\
            d !! "price" = Some VNone.
Proof.
  split; [reflexivity|].
  eexists; split.
  - apply request_params_of_eq. by apply holds_order_store_of.
  - rewrite !merged_lookup. by repeat split.
Qed.

(** C6 (amended): in the request parameters of every OrderRequest, [symbol]
    and [side] are the upper-cased fields, and [price] and [stopPrice] are
    absent when the corresponding field is unset, in each case provided
    that [extra_params] does not itself have that key. *)
Theorem uppercase_and_omitted_fields w self o extra :
  holds_order w self o extra ->
  exists d, request_params_of w self = Some d /\
    (extra !! "symbol" = None -> d !! "symbol" = Some (VStr (upper (symbol o)))) /\
    (extra !! "side" = None -> d !! "side" = Some (VStr (upper (side o)))) /\
    (price o = None -> extra !! "price" = None -> d !! "price" = None) /\
    (stop_price o = None -> extra !! "stopPrice" = None -> d !! "stopPrice" = None).
Proof.
  intros Hw. eexists; split; [by apply request_params_of_eq|].
  rewrite !merged_lookup.
  rewrite computed_symbol, computed_side, computed_price, computed_stopPrice.
  repeat split.
  - by intros ->.
  - by intros ->.
  - by intros -> ->.
  - by intros -> ->.
Qed.

Lemma uppercase_and_omitted_fields_witness :
  holds_order (store_of extra_time_in_force market_order) 1 market_order
              extra_time_in_force /\
  exists d, request_params_of (store_of extra_time_in_force market_order) 1 = Some d /\
    (extra_time_in_force !! "symbol" = None ->
       d !! "symbol" = Some (VStr (upper (symbol market_order)))) /\
    (extra_time_in_force !! "side" = None ->
       d !! "side" = Some (VStr (upper (side market_order)))) /\
    (price market_order = None -> extra_time_in_force !! "price" = None ->
       d !! "price" = None) /\
    (stop_price market_order = None -> extra_time_in_force !! "stopPrice" = None ->
       d !! "stopPrice" = None).
Proof.
  split.
  - apply holds_order_store_of. reflexivity.
  - apply (uppercase_and_omitted_fields (store_of extra_time_in_force market_order) 1
             market_order extra_time_in_force).
    apply holds_order_store_of. reflexivity.
Defined.

(** ** Frame properties *)

(** The store after a run extends the store before it by new references
    only. *)
Lemma extended_store_frame (h : list object) (new : list object) (l : loc) :
  is_Some (h !! l) -> (h ++ new) !! l = h !! l.
Proof. intros Hl. apply lookup_app_l. by apply lookup_lt_is_Some. Qed.

Lemma unused_reference (h : list object) : h !! length h = None.
Proof. by apply lookup_ge_None_2. Qed.

(** C9: [_sanitize_for_logging] returns a new dictionary (a reference that
    was not in use) holding the entries of its argument other than
    [signature], and leaves its argument, and every other object, as it
    was; [to_request_params] returns a new dictionary too and leaves the
    OrderRequest, its [extra_params] dictionary and every other object as
    they were.  Neither writes to the trace. *)
Theorem dictionary_functions_frame w1 params d w2 self o extra :
  heap w1 !! params = Some (ODict d) ->
  holds_order w2 self o extra ->
  (exists l w' d',
     _sanitize_for_logging params w1 = Ret l w' /\
     heap w1 !! l = None /\
     heap w' !! l = Some (ODict d') /\
     d' !! "signature" = None /\
     (forall k, k <> "signature" -> d' !! k = d !! k) /\
     heap w' !! params = Some (ODict d) /\
     (forall l', is_Some (heap w1 !! l') -> heap w' !! l' = heap w1 !! l') /\
     trace w' = trace w1) /\
  (exists l w',
     to_request_params self w2 = Ret l w' /\
     heap w2 !! l = None /\
     is_Some (heap w' !! l) /\
     heap w' !! self = Some (OOrderRequest o) /\
     heap w' !! extra_params o = Some (ODict extra) /\
     (forall l', is_Some (heap w2 !! l') -> heap w' !! l' = heap w2 !! l') /\
     trace w' = trace w2).
Proof.
  intros Hp [Hself Hextra]. split.
  - eexists _, _, _. split; [by apply sanitize_run|]. simpl.
    split_and!.
    + apply unused_reference.
    + apply heap_lookup_last.
    + apply lookup_delete_eq.
    + intros k Hk. by apply lookup_delete_ne.
    + rewrite extended_store_frame by (by rewrite Hp). done.
    + intros l' Hl'. by apply extended_store_frame.
    + done.
  - eexists _, _. split; [by apply to_request_params_run|]. simpl.
    split_and!.
    + apply unused_reference.
    + rewrite heap_lookup_last. by eexists.
    + rewrite extended_store_frame by (by rewrite Hself). done.
    + rewrite extended_store_frame by (by rewrite Hextra). done.
    + intros l' Hl'. by apply extended_store_frame.
    + done.
Qed.

Lemma dictionary_functions_frame_witness :
  let w := store_of extra_signature limit_order in
  heap w !! 0 = Some (ODict extra_signature) /\
  holds_order w 1 limit_order extra_signature /\
  (exists l w' d',
     _sanitize_for_logging 0 w = Ret l w' /\
     heap w !! l = None /\
     heap w' !! l = Some (ODict d') /\
     d' !! "signature" = None /\
     (forall k, k <> "signature" -> d' !! k = extra_signature !! k) /\
     heap w' !! 0 = Some (ODict extra_signature) /\
     (forall l', is_Some (heap w !! l') -> heap w' !! l' = heap w !! l') /\
     trace w' = trace w) /\
  (exists l w',
     to_request_params 1 w = Ret l w' /\
     heap w !! l = None /\
     is_Some (heap w' !! l) /\
     heap w' !! 1 = Some (OOrderRequest limit_order) /\
     heap w' !! extra_params limit_order = Some (ODict extra_signature) /\
     (forall l', is_Some (heap w !! l') -> heap w' !! l' = heap w !! l') /\
     trace w' = trace w).
Proof.
  intros w.
  split; [reflexivity|]. split; [by apply holds_order_store_of|].
  apply (dictionary_functions_frame w 0 extra_signature w 1 limit_order
           extra_signature).
  - reflexivity.
  - by apply holds_order_store_of.
Defined.

(** ** Claims on [place_order] *)

(** C8: the first thing [place_order] does with the request parameters is
    to log them without their [signature] entry, and only then are they
    handed, complete, to the exchange client: the logged dictionary is the
    sent one with [signature] deleted, so it has no [signature] entry and
    agrees with the sent one on every other key. *)
Theorem logged_request_is_sanitized client w order o extra :
  holds_order w order o extra ->
  exists sent shown rest,
    request_params_of w order = Some sent /\
    trace (final_world (place_order client order w))
      = trace w ++ Log INFO "Sending order request: %s" [LDict shown]
                :: CreateOrder sent :: rest /\
    shown = delete "signature" sent /\
    shown !! "signature" = None /\
    (forall k, k <> "signature" -> shown !! k = sent !! k).
Proof.
  intros Hw.
  exists (extra ∪ computed_params o), (delete "signature" (extra ∪ computed_params o)).
  rewrite (place_order_run client _ _ _ _ Hw); simpl.
  destruct (client (extra ∪ computed_params o)) as [r|exc]; simpl;
    eexists; (split_and!;
      [ by apply request_params_of_eq
      | by rewrite <- app_assoc
      | done
      | apply lookup_delete_eq
      | intros k Hk; by apply lookup_delete_ne ]).
Qed.

Lemma logged_request_is_sanitized_witness :
  holds_order (store_of extra_signature limit_order) 1 limit_order extra_signature /\
  exists sent shown rest,
    request_params_of (store_of extra_signature limit_order) 1 = Some sent /\
    trace (final_world (place_order Response 1 (store_of extra_signature limit_order)))
      = trace (store_of extra_signature limit_order)
          ++ Log INFO "Sending order request: %s" [LDict shown]
          :: CreateOrder sent :: rest /\
    shown = delete "signature" sent /\
    shown !! "signature" = None /\
    (forall k, k <> "signature" -> shown !! k = sent !! k).
Proof.
  split.
  - by apply holds_order_store_of.
  - apply (logged_request_is_sanitized Response (store_of extra_signature limit_order)
             1 limit_order extra_signature).
    by apply holds_order_store_of.
Defined.

(** ** One run of [main] *)

Lemma issubclass_below_Exception c target :
  target = BinanceAPIException \/ target = BinanceOrderException
    \/ target = ValueError ->
  issubclass c target = true -> derives_from_Exception c = true.
Proof.
  intros Ht. induction c as [| | | | | |name base IH|name]; simpl; try done.
  - destruct Ht as [->|[->| ->]]; simpl; apply IH.
  - by destruct Ht as [->|[->| ->]].
Qed.

Lemma isinstance_below_Exception exc targets :
  Forall (fun t => t = BinanceAPIException \/ t = BinanceOrderException
                   \/ t = ValueError) targets ->
  isinstance exc targets = true -> isinstance exc [Exception_] = true.
Proof.
  intros Hall Hin. rewrite isinstance_Exception.
  unfold isinstance in Hin. apply existsb_exists in Hin as (t & Ht & Hsub).
  apply list_elem_of_In in Ht. rewrite Forall_forall in Hall.
  by apply (issubclass_below_Exception _ t (Hall t Ht)).
Qed.

Lemma binance_below_Exception exc :
  isinstance exc [BinanceAPIException; BinanceOrderException] = true ->
  isinstance exc [Exception_] = true.
Proof.
  apply isinstance_below_Exception.
  repeat (apply List.Forall_cons; [by auto|]). apply List.Forall_nil.
Qed.

Lemma ValueError_below_Exception exc :
  isinstance exc [ValueError] = true -> isinstance exc [Exception_] = true.
Proof.
  apply isinstance_below_Exception.
  repeat (apply List.Forall_cons; [by auto|]). apply List.Forall_nil.
Qed.

Lemma run_handled client connect args :
  connect (args_api_key args) (args_api_secret args) = None ->
  run client connect args initial_world = handled (execute_order client args started).
Proof.
  intros Hc.
  unfold run, bind at 1, BasicBot_init. rewrite Hc.
  unfold bind at 1, try_except, emit, ret, raise, handled.
  cbn -[isinstance execute_order].
  fold started. unfold bind at 1.
  destruct (execute_order client args started) as [r w|exc w]; [reflexivity|].
  unfold exit_code, main_record.
  destruct (isinstance exc [BinanceAPIException; BinanceOrderException]) eqn:Hb.
  - rewrite (binance_below_Exception exc Hb).
    reflexivity.
  - destruct (isinstance exc [ValueError]) eqn:Hv.
    + rewrite (ValueError_below_Exception exc Hv).
      reflexivity.
    + by destruct (isinstance exc [Exception_]).
Qed.

Lemma run_unconnected client connect args exc :
  connect (args_api_key args) (args_api_secret args) = Some exc ->
  run client connect args initial_world = Raise exc initial_world.
Proof.
  intros Hc. unfold run, bind at 1, BasicBot_init. by rewrite Hc.
Qed.

(** [main] when the dispatch is reached. *)
Lemma main_reached env argv args :
  parse_args argv = Parsed args ->
  reaches_dispatch env args ->
  status (main env argv)
  = match handled (execute_order (exchange env) args started) with
    | Ret code _ => Returned code
    | Raise exc _ => Uncaught exc
    end /\
  after (main env argv)
  = final_world (handled (execute_order (exchange env) args started)).
Proof.
  intros Hp Hr. unfold main. rewrite Hp.
  unfold reaches_dispatch, set_up_error in Hr.
  destruct (configure_logging _ _ _ _ _) as [root [exc|]]; simpl in Hr; [done|].
  rewrite (run_handled _ _ _ Hr).
  by destruct (handled _).
Qed.

(** [main] when the set-up fails. *)
Lemma main_stopped env argv args exc :
  parse_args argv = Parsed args ->
  set_up_error env args = Some exc ->
  status (main env argv) = Uncaught exc /\ after (main env argv) = initial_world.
Proof.
  intros Hp Hs. unfold main. rewrite Hp.
  unfold set_up_error in Hs.
  destruct (configure_logging _ _ _ _ _) as [root [exc'|]]; simpl in Hs.
  - by injection Hs as ->.
  - by rewrite (run_unconnected _ _ _ _ Hs).
Qed.


Lemma execute_order_market client args :
  args_order_type args = "MARKET" ->
  exists kw h,
    build_kwargs args = inr kw /\
    kw_price kw = None /\ kw_stop_price kw = None /\
    execute_order client args started
    = dispatched client args kw h (∅ ∪ computed_params (market_request args)).
Proof.
  intros Ht. unfold execute_order, build_kwargs. rewrite Ht; simpl.
  eexists _, [ODict ∅; OOrderRequest (market_request args)]. split_and!; try reflexivity.
  unfold bind at 1, emit; simpl.
  unfold call_place_market_order, place_market_order; simpl.
  unfold bind at 1, or_empty, new_object at 1; simpl.
  unfold bind at 1, new_object at 1; simpl.
  rewrite (place_order_run client _ 1 (market_request args) ∅)
    by (split; reflexivity).
  simpl. unfold dispatched; rewrite Ht; simpl.
  by destruct (client _).
Qed.

Lemma execute_order_limit client args p :
  args_order_type args = "LIMIT" ->
  args_price args = Some p ->
  exists kw h,
    build_kwargs args = inr kw /\
    execute_order client args started
    = dispatched client args kw h (∅ ∪ computed_params (limit_request args p)).
Proof.
  intros Ht Hp. unfold execute_order, build_kwargs. rewrite Ht, Hp; simpl.
  eexists _, [ODict ∅; OOrderRequest (limit_request args p)]. split; [reflexivity|].
  unfold bind at 1, emit; simpl.
  unfold call_place_limit_order, place_limit_order; simpl.
  unfold bind at 1, or_empty, new_object at 1; simpl.
  unfold bind at 1, new_object at 1; simpl.
  rewrite (place_order_run client _ 1 (limit_request args p) ∅)
    by (split; reflexivity).
  simpl. unfold dispatched; rewrite Ht; simpl.
  by destruct (client _).
Qed.

Lemma execute_order_stop_limit client args p sp :
  args_order_type args = "STOP_LIMIT" ->
  args_price args = Some p ->
  args_stop_price args = Some sp ->
  exists kw h,
    build_kwargs args = inr kw /\
    execute_order client args started
    = dispatched client args kw h
        (working_type ∪ computed_params (stop_limit_request args p sp)).
Proof.
  intros Ht Hp Hsp. unfold execute_order, build_kwargs. rewrite Ht, Hp, Hsp; simpl.
  eexists _, [ODict ∅; ODict working_type;
              OOrderRequest (stop_limit_request args p sp)]. split; [reflexivity|].
  unfold bind at 1, emit; simpl.
  unfold call_place_stop_limit_order, place_stop_limit_order; simpl.
  unfold bind at 1, or_empty, new_object at 1; simpl.
  unfold bind at 1, get_dict at 1; simpl.
  unfold bind at 1, new_object at 1; simpl.
  unfold bind at 1, new_object at 1; simpl.
  rewrite (map_empty_union working_type).
  rewrite (place_order_run client _ 2 (stop_limit_request args p sp) working_type)
    by (split; reflexivity).
  simpl. unfold dispatched; rewrite Ht; simpl.
  by destruct (client _).
Qed.

(** ** From a dispatch to the result of [main] *)

Lemma build_kwargs_rejected args exc :
  build_kwargs args = inl exc -> exn_cls exc = ValueError.
Proof.
  unfold build_kwargs.
  destruct (String.eqb (args_order_type args) "LIMIT").
  - destruct (args_price args); [done|]. by intros [= <-].
  - destruct (String.eqb (args_order_type args) "STOP_LIMIT"); [|done].
    destruct (args_price args), (args_stop_price args); try done; by intros [= <-].
Qed.

Lemma main_rejected env argv args exc :
  parse_args argv = Parsed args ->
  build_kwargs args = inl exc ->
  order_calls (after (main env argv)) = [] /\
  (reaches_dispatch env args ->
     status (main env argv) = Returned 2 /\
     last (trace (after (main env argv)))
     = Some (Log ERROR "Input validation error: %s" [LExn exc])).
Proof.
  intros Hp Hk.
  assert (Hrun : handled (execute_order (exchange env) args started)
                 = Ret 2%Z (mkWorld [] (trace started
                     ++ [Log ERROR "Input validation error: %s" [LExn exc]]))).
  { unfold execute_order. rewrite Hk. unfold raise, handled, exit_code, main_record.
    apply build_kwargs_rejected in Hk. unfold isinstance; rewrite Hk; simpl. done. }
  destruct (set_up_error env args) as [exc'|] eqn:Hs.
  - destruct (main_stopped env argv args exc' Hp Hs) as [_ ->].
    split; [done|]. unfold reaches_dispatch. by rewrite Hs.
  - destruct (main_reached env argv args Hp Hs) as [Hst Haf].
    rewrite Hst, Haf, Hrun. by split.
Qed.

Lemma main_dispatched env argv args kw h sent :
  parse_args argv = Parsed args ->
  reaches_dispatch env args ->
  execute_order (exchange env) args started = dispatched (exchange env) args kw h sent ->
  status (main env argv)
    = match exchange env sent with
      | Response _ => Returned 0
      | Failure exc =>
          if isinstance exc [Exception_] then Returned (exit_code exc)
          else Uncaught exc
      end /\
  order_calls (after (main env argv)) = [sent].
Proof.
  intros Hp Hr He.
  destruct (main_reached env argv args Hp Hr) as [-> ->]. rewrite He.
  unfold dispatched, handled.
  destruct (exchange env sent) as [r|exc]; [done|].
  unfold failure_records, main_record.
  destruct (isinstance exc [BinanceAPIException; BinanceOrderException]) eqn:Hb.
  - by rewrite (binance_below_Exception exc Hb).
  - destruct (isinstance exc [Exception_]); [|done].
    by destruct (isinstance exc [ValueError]).
Qed.

(** The three requests of the command line. *)
Lemma accepted_cases client args kw :
  args_order_type args ∈ ["MARKET"; "LIMIT"; "STOP_LIMIT"] ->
  build_kwargs args = inr kw ->
  exists h sent,
    execute_order client args started = dispatched client args kw h sent /\
    ((args_order_type args = "MARKET" /\
      kw_price kw = None /\ kw_stop_price kw = None /\
      sent = ∅ ∪ computed_params (market_request args)) \/
     (args_order_type args = "LIMIT" /\
      exists p, args_price args = Some p /\
                sent = ∅ ∪ computed_params (limit_request args p)) \/
     (args_order_type args = "STOP_LIMIT" /\
      exists p sp, args_price args = Some p /\ args_stop_price args = Some sp /\
                   sent = working_type ∪ computed_params (stop_limit_request args p sp))).
Proof.
  intros Hty Hk.
  set_unfold in Hty. destruct Hty as [Hty|[Hty|[Hty|[]]]].
  - destruct (execute_order_market client args Hty) as (kw' & h & Hk' & Hp & Hs & He).
    rewrite Hk in Hk'. injection Hk' as <-.
    eexists h, _. split; [exact He|]. by left.
  - assert (exists p, args_price args = Some p) as [p Hprice].
    { unfold build_kwargs in Hk. rewrite Hty in Hk; simpl in Hk.
      destruct (args_price args); [by eexists | done]. }
    destruct (execute_order_limit client args p Hty Hprice) as (kw' & h & Hk' & He).
    rewrite Hk in Hk'. injection Hk' as <-.
    eexists h, _. split; [exact He|]. right; left. split; [done|]. by exists p.
  - assert (exists p sp, args_price args = Some p /\ args_stop_price args = Some sp)
      as (p & sp & Hprice & Hstop).
    { unfold build_kwargs in Hk. rewrite Hty in Hk; simpl in Hk.
      destruct (args_price args), (args_stop_price args); try done.
      by eexists _, _. }
    destruct (execute_order_stop_limit client args p sp Hty Hprice Hstop)
      as (kw' & h & Hk' & He).
    rewrite Hk in Hk'. injection Hk' as <-.
    eexists h, _. split; [exact He|]. right; right. split; [done|]. by exists p, sp.
Qed.
(** ** The parser *)

Lemma last_given_cons {A} (given : token -> option A) tok argv :
  last_given given (tok :: argv)
  = match last_given given argv with
    | Some x => Some x
    | None => given tok
    end.
Proof.
  unfold last_given.
  change (omap given (tok :: argv))
    with (match given tok with
          | Some y => y :: omap given argv
          | None => omap given argv
          end).
  destruct (given tok) as [x|].
  - rewrite last_cons. by destruct (last (omap given argv)).
  - by destruct (last (omap given argv)).
Qed.

Lemma PositiveDecimal_stored values x :
  PositiveDecimal values = Stored x -> stored values = Some x /\ accepted_float x.
Proof.
  unfold stored. intros H. rewrite H. split; [done|].
  unfold PositiveDecimal in H.
  destruct values as [|[negative m e|negative|]]; simpl in H; try done.
  - destruct negative; simpl in H; [done|].
    destruct (m =? 0)%N eqn:Hm; simpl in H; [done|].
    injection H as <-. exists (DecFinite false m e). split; [|done].
    split; [done|]. by apply N.eqb_neq.
  - destruct negative; simpl in H; [done|].
    injection H as <-. by exists (DecInfinity false).
Qed.



Lemma choice_Some choices s s' :
  choice choices s = Some s' -> s' = s /\ s ∈ choices.
Proof. unfold choice. case_bool_decide; [|done]. by intros [= <-]. Qed.

Lemma reduce_only_cons tok argv :
  bool_decide (OptReduceOnly ∈ tok :: argv)
  = match tok with OptReduceOnly => true | _ => false end
    || bool_decide (OptReduceOnly ∈ argv).
Proof.
  destruct (decide (tok = OptReduceOnly)) as [->|Hne].
  - by rewrite bool_decide_eq_true_2 by (by left).
  - transitivity (bool_decide (OptReduceOnly ∈ argv)).
    + apply bool_decide_ext. rewrite elem_of_cons.
      split; [intros [Heq|Hin]; [by destruct Hne|done] | by right].
    + by destruct tok.
Qed.

Ltac consumed Hc :=
  simpl in Hc; unfold with_choice, with_positive in Hc;
  try discriminate Hc;
  try match type of Hc with
      | context [choice ?c ?s] =>
          let H := fresh "Hch" in
          destruct (choice c s) as [?|] eqn:H; [|done];
          apply choice_Some in H as [-> H]
      | context [PositiveDecimal ?v] =>
          let H := fresh "Hpd" in
          destruct (PositiveDecimal v) as [?| |?] eqn:H; try done;
          apply PositiveDecimal_stored in H as [H ?]
      end;
  try match type of Hc with
      | Continue _ = Continue _ => injection Hc; clear Hc; intros <-
      end.

Lemma reads_cons tok st st' argv args :
  consume tok st = Continue st' ->
  reads st' argv args -> reads st (tok :: argv) args.
Proof.
  intros Hc (Hkey & Hsec & Hlf & Hll & Hsym & Hsd & Hty & Hq & Hp & Hsp & Htif & Hro).
  destruct st as [key secret sym sd ty q p sp tif ro lf ll un].
  unfold reads. rewrite !last_given_cons, reduce_only_cons.
  destruct tok; consumed Hc; simpl in *;
    rewrite ?Hkey, ?Hsec, ?Hlf, ?Hll, ?Hsym, ?Hsd, ?Hty, ?Hq, ?Hp, ?Hsp, ?Htif, ?Hro;
    split_and!; try done;
    try (by match goal with
            | |- context [last_given ?g argv] => destruct (last_given g argv)
            end);
    try (by rewrite ?orb_true_r; destruct ro).
Qed.

Lemma parse_from_reads argv : forall st args,
  parse_from st argv = Parsed args -> reads st argv args.
Proof.
  induction argv as [|tok argv IH]; intros st args H; simpl in H.
  - destruct st as [key secret sym sd ty q p sp tif ro lf ll un].
    unfold complete in H; simpl in H.
    destruct key, secret, sd, q; try done. destruct un; [done|].
    injection H as <-. unfold reads; simpl.
    split_and!; try done. by rewrite orb_false_r.
  - destruct (consume tok st) as [st'| |] eqn:Hc; try done.
    by apply (reads_cons tok st st'), IH.
Qed.

Lemma consume_ok tok st st' :
  consume tok st = Continue st' -> partial_ok st -> partial_ok st'.
Proof.
  intros Hc (Hsd & Hty & Htif & Hq & Hp & Hsp).
  destruct st as [key secret sym sd ty q p sp tif ro lf ll un].
  destruct tok; consumed Hc; simpl in *; unfold partial_ok; simpl;
    split_and!; try done; by intros ? [= <-].
Qed.

Lemma complete_ok st args :
  partial_ok st -> complete st = Parsed args -> namespace_ok args.
Proof.
  intros (Hsd & Hty & Htif & Hq & Hp & Hsp).
  destruct st as [key secret sym sd ty q p sp tif ro lf ll un].
  unfold complete; simpl in *.
  destruct key, secret, sd, q; try done. destruct un; [done|].
  intros [= <-]. unfold namespace_ok; simpl. split_and!; auto.
Qed.

Lemma parse_from_ok argv : forall st args,
  partial_ok st -> parse_from st argv = Parsed args -> namespace_ok args.
Proof.
  induction argv as [|tok argv IH]; intros st args Hst H; simpl in H.
  - by apply (complete_ok st).
  - destruct (consume tok st) as [st'| |] eqn:Hc; try done.
    apply (IH st'); [|done]. by apply (consume_ok tok st).
Qed.

Lemma defaults_ok : partial_ok defaults.
Proof.
  unfold partial_ok, defaults; simpl. split_and!; try done;
    set_unfold; tauto.
Qed.

Lemma parse_args_ok argv args :
  parse_args argv = Parsed args -> namespace_ok args.
Proof. apply parse_from_ok, defaults_ok. Qed.

Lemma parse_args_reads argv args :
  parse_args argv = Parsed args -> reads defaults argv args.
Proof. apply parse_from_reads. Qed.









(** The parser takes exactly the well-formed command lines. *)









(** ** The calls of one invocation *)

Lemma main_calls env argv args kw h sent :
  parse_args argv = Parsed args ->
  execute_order (exchange env) args started
    = dispatched (exchange env) args kw h sent ->
  (forall s, s ∈ order_calls (after (main env argv)) -> s = sent) /\
  (reaches_dispatch env args -> order_calls (after (main env argv)) = [sent]).
Proof.
  intros Hp He.
  destruct (set_up_error env args) as [exc|] eqn:Hs.
  - destruct (main_stopped env argv args exc Hp Hs) as [_ ->].
    split; [by intros s Hin%elem_of_nil|].
    unfold reaches_dispatch. by rewrite Hs.
  - destruct (main_dispatched env argv args kw h sent Hp Hs He) as [_ ->].
    split; [by intros s ->%list_elem_of_singleton|done].
Qed.

Lemma parsed_cases env argv args :
  parse_args argv = Parsed args ->
  (exists exc, build_kwargs args = inl exc /\
               order_calls (after (main env argv)) = []) \/
  (exists kw h sent,
     build_kwargs args = inr kw /\
     execute_order (exchange env) args started
       = dispatched (exchange env) args kw h sent).
Proof.
  intros Hp. destruct (build_kwargs args) as [exc|kw] eqn:Hk.
  - left. exists exc. split; [done|].
    by destruct (main_rejected env argv args exc Hp Hk).
  - right.
    destruct (parse_args_ok argv args Hp) as (_ & Hty & _).
    destruct (accepted_cases (exchange env) args kw Hty Hk) as (h & sent & He & _).
    by exists kw, h, sent.
Qed.

Lemma upper_side sd : sd ∈ ["BUY"; "SELL"] -> upper sd = sd.
Proof. set_unfold. by intros [->|[->|[]]]. Qed.





Lemma execute_order_accepted client args kw :
  args_order_type args ∈ ["MARKET"; "LIMIT"; "STOP_LIMIT"] ->
  build_kwargs args = inr kw ->
  exists h sent,
    execute_order client args started = dispatched client args kw h sent /\
    sent !! "reduceOnly" = VBool <$> cli_reduce_only args /\
    sent !! "signature" = None /\
    (args_order_type args = "MARKET" ->
       kw_price kw = None /\ kw_stop_price kw = None /\
       sent !! "price" = None /\ sent !! "stopPrice" = None).
Proof.
  intros Hty Hk.
  destruct (accepted_cases client args kw Hty Hk)
    as (h & sent & He & [(Hm & Hkp & Hks & ->)|[(Hl & p & Hp & ->)|(Hs & p & sp & Hp & Hsp & ->)]]).
  - exists h, (∅ ∪ computed_params (market_request args)).
    split; [exact He|]. rewrite !merged_lookup. by split_and!.
  - exists h, (∅ ∪ computed_params (limit_request args p)).
    split; [exact He|]. rewrite !merged_lookup. split_and!; try done.
    by rewrite Hl.
  - exists h, (working_type ∪ computed_params (stop_limit_request args p sp)).
    split; [exact He|]. rewrite !merged_lookup. split_and!; try done.
    by rewrite Hs.
Qed.

Lemma market_execute_order client args price stop_price :
  args_order_type args = "MARKET" ->
  execute_order client (with_prices price stop_price args)
  = execute_order client args.
Proof.
  intros Hty. unfold execute_order, build_kwargs, with_prices; simpl.
  by rewrite Hty.
Qed.

Lemma market_run client connect args price stop_price :
  args_order_type args = "MARKET" ->
  run client connect (with_prices price stop_price args) = run client connect args.
Proof.
  intros Hty. unfold run.
  by rewrite (market_execute_order client args price stop_price Hty).
Qed.

(** ** Where the parser stops *)






Lemma main_ParserExit env argv code :
  parse_args argv = ParserExit code ->
  main env argv = mkFinish (SystemExit code) initial_world (root_logger env).
Proof. intros Hp. unfold main. by rewrite Hp. Qed.

Lemma main_ParserRaises env argv exc :
  parse_args argv = ParserRaises exc ->
  main env argv = mkFinish (Uncaught exc) initial_world (root_logger env).
Proof. intros Hp. unfold main. by rewrite Hp. Qed.

(** ** The request of each order type *)

Lemma takes_time_in_force_MARKET : takes_time_in_force (upper "MARKET") = false.
Proof. reflexivity. Qed.

Lemma takes_time_in_force_LIMIT : takes_time_in_force (upper "LIMIT") = true.
Proof. reflexivity. Qed.

Lemma takes_time_in_force_STOP : takes_time_in_force (upper "STOP") = true.
Proof. reflexivity. Qed.

Local Ltac wire_lookup :=
  repeat first
    [ rewrite lookup_insert_eq
    | rewrite lookup_insert_ne by done
    | rewrite lookup_singleton_eq
    | rewrite lookup_singleton_ne by done
    | rewrite lookup_empty ].

Lemma market_wire args :
  args_side args ∈ ["BUY"; "SELL"] ->
  ∅ ∪ computed_params (market_request args)
  = with_reduce_only (args_reduce_only args)
      (<["symbol" := VStr (upper (args_symbol args))]>
       (<["side" := VStr (args_side args)]>
       (<["type" := VStr "MARKET"]>
       {["quantity" := VFloat (args_quantity args)]}))).
Proof.
  intros Hside.
  apply map_eq. intros k. rewrite merged_lookup, lookup_empty.
  unfold computed_entry, market_request, cli_reduce_only, with_reduce_only.
  cbn [symbol side order_type quantity price time_in_force stop_price reduce_only].
  rewrite (upper_side _ Hside), takes_time_in_force_MARKET.
  destruct (args_reduce_only args); repeat case_decide; subst; simpl; by wire_lookup.
Qed.

Lemma limit_wire args p :
  args_side args ∈ ["BUY"; "SELL"] ->
  ∅ ∪ computed_params (limit_request args p)
  = with_reduce_only (args_reduce_only args)
      (<["symbol" := VStr (upper (args_symbol args))]>
       (<["side" := VStr (args_side args)]>
       (<["type" := VStr "LIMIT"]>
       (<["quantity" := VFloat (args_quantity args)]>
       (<["price" := VFloat p]>
       {["timeInForce" := VStr (args_time_in_force args)]}))))).
Proof.
  intros Hside.
  apply map_eq. intros k. rewrite merged_lookup, lookup_empty.
  unfold computed_entry, limit_request, cli_reduce_only, with_reduce_only.
  cbn [symbol side order_type quantity price time_in_force stop_price reduce_only].
  rewrite (upper_side _ Hside), takes_time_in_force_LIMIT.
  destruct (args_reduce_only args); repeat case_decide; subst; simpl; by wire_lookup.
Qed.

Lemma stop_limit_wire args p sp :
  args_side args ∈ ["BUY"; "SELL"] ->
  working_type ∪ computed_params (stop_limit_request args p sp)
  = with_reduce_only (args_reduce_only args)
      (<["symbol" := VStr (upper (args_symbol args))]>
       (<["side" := VStr (args_side args)]>
       (<["type" := VStr "STOP"]>
       (<["quantity" := VFloat (args_quantity args)]>
       (<["price" := VFloat p]>
       (<["stopPrice" := VFloat sp]>
       (<["timeInForce" := VStr (args_time_in_force args)]>
       {["workingType" := VStr "CONTRACT_PRICE"]}))))))).
Proof.
  intros Hside.
  apply map_eq. intros k. rewrite merged_lookup.
  unfold computed_entry, stop_limit_request, cli_reduce_only, with_reduce_only,
    working_type.
  cbn [symbol side order_type quantity price time_in_force stop_price reduce_only].
  rewrite (upper_side _ Hside), takes_time_in_force_STOP.
  destruct (decide (k = "workingType")) as [->|Hwt];
    destruct (args_reduce_only args); repeat case_decide; subst; simpl;
    by wire_lookup.
Qed.

(** ** The calls and the records of a dispatch *)

Lemma dispatched_calls client args kw h sent :
  order_calls (final_world (dispatched client args kw h sent)) = [sent].
Proof.
  unfold dispatched, order_calls.
  destruct (client sent) as [resp|exc]; [done|].
  cbn [final_world trace]. rewrite !omap_app. unfold failure_records.
  destruct (isinstance exc [BinanceAPIException; BinanceOrderException]);
    [done|]. by destruct (isinstance exc [Exception_]).
Qed.

Lemma dispatched_trace client args kw h sent :
  exists before rest,
    trace (final_world (handled (dispatched client args kw h sent)))
    = before ++ [Log INFO "Sending order request: %s"
                     [LDict (delete "signature" sent)];
                 CreateOrder sent] ++ rest.
Proof.
  unfold dispatched, handled.
  destruct (client sent) as [resp|exc].
  - eexists [_; _], [_]. reflexivity.
  - destruct (isinstance exc [Exception_]); cbn [final_world trace].
    + eexists [_; _], (failure_records exc ++ [main_record exc]).
      simpl. by rewrite <- ?app_assoc.
    + eexists [_; _], (failure_records exc). reflexivity.
Qed.

(** ** [configure_logging] *)

Lemma removeHandler_all (hs : list handler) :
  foldl (fun acc hdlr => removeHandler hdlr acc) hs hs = [].
Proof.
  induction hs as [|h hs IH]; [done|].
  simpl. by rewrite decide_True.
Qed.

Lemma handlers_cleared (root : logger) :
  (if bool_decide (handlers root = []) then handlers root
   else foldl (fun acc hdlr => removeHandler hdlr acc) (handlers root) (handlers root))
  = [].
Proof. case_bool_decide; [done | apply removeHandler_all]. Qed.

(** ** Claims on the command line *)



(** C5, as the claim states it, fails: the invocation below parses, has
    [--type LIMIT] and no [--price], and [main] does not return 2 when the
    log file cannot be opened: [configure_logging], which runs before the
    [try] statement, raises, and the exception leaves [main]. *)
Lemma limit_without_price_counterexample :
  parse_args limit_without_price_argv = Parsed limit_without_price_args /\
  last_given given_type limit_without_price_argv = Some "LIMIT" /\
  last_given given_price limit_without_price_argv = None /\
  status (main (env_of accepting_client false) limit_without_price_argv)
  = Uncaught no_such_file /\
  status (main (env_of accepting_client false) limit_without_price_argv)
  <> Returned 2.
Proof. split_and!; try reflexivity. vm_compute. discriminate. Qed.

(** C5, amended: an invocation that parses, with [--type LIMIT] and without
    [--price], never calls the exchange client; [main] returns 2 when the
    set-up before the [try] statement (the logging configuration and the
    construction of the client) succeeds, and is left by the exception of
    the set-up otherwise. *)
Theorem limit_without_price env argv args :
  parse_args argv = Parsed args ->
  last_given given_type argv = Some "LIMIT" ->
  last_given given_price argv = None ->
  order_calls (after (main env argv)) = [] /\
  (reaches_dispatch env args -> status (main env argv) = Returned 2) /\
  (forall exc, set_up_error env args = Some exc ->
     status (main env argv) = Uncaught exc).
Proof.
  intros Hparse Hty Hprice.
  destruct (parse_args_reads argv args Hparse) as (_ & _ & _ & _ & _ & _ & Rty & _ & Rp & _).
  rewrite Hty in Rty. rewrite Hprice in Rp. simpl in Rty, Rp.
  assert (Hk : build_kwargs args
               = inl (mkExn ValueError "--price is required for LIMIT orders")).
  { unfold build_kwargs. by rewrite Rty, Rp. }
  destruct (main_rejected env argv args _ Hparse Hk) as [Hcalls Hret].
  split; [exact Hcalls|]. split.
  - intros Hr. by destruct (Hret Hr).
  - intros exc Hs. by destruct (main_stopped env argv args exc Hparse Hs).
Qed.

Lemma limit_without_price_witness :
  parse_args limit_without_price_argv = Parsed limit_without_price_args /\
  last_given given_type limit_without_price_argv = Some "LIMIT" /\
  last_given given_price limit_without_price_argv = None /\
  order_calls (after (main (env_of accepting_client true)
                        limit_without_price_argv)) = [] /\
  (reaches_dispatch (env_of accepting_client true) limit_without_price_args ->
   status (main (env_of accepting_client true) limit_without_price_argv)
   = Returned 2) /\
  (forall exc,
     set_up_error (env_of accepting_client true) limit_without_price_args
     = Some exc ->
     status (main (env_of accepting_client true) limit_without_price_argv)
     = Uncaught exc).
Proof.
  split; [reflexivity|]. split; [reflexivity|]. split; [reflexivity|].
  apply (limit_without_price (env_of accepting_client true)
           limit_without_price_argv limit_without_price_args); reflexivity.
Defined.

(** C7, as the claim states it, fails: the invocation below reaches the
    dispatch, the exchange client raises an exception that is neither an
    API or order exception nor a [ValueError], and [main] does not return
    3: a [KeyboardInterrupt] is not below [Exception], no handler of
    [place_order] or [main] takes it, and it leaves [main]. *)
Lemma main_exit_codes_counterexample :
  parse_args market_argv = Parsed market_args /\
  reaches_dispatch (env_of interrupted_client true) market_args /\
  order_calls (after (main (env_of interrupted_client true) market_argv))
  = [ <["symbol" := VStr "BTCUSDT"]> (<["side" := VStr "BUY"]>
      (<["type" := VStr "MARKET"]> {["quantity" := VFloat one]})) ] /\
  status (main (env_of interrupted_client true) market_argv)
  = Uncaught (mkExn (BaseOnly "KeyboardInterrupt") "") /\
  status (main (env_of interrupted_client true) market_argv) <> Returned 3.
Proof.
  split_and!; try reflexivity; try (vm_compute; reflexivity).
  vm_compute. discriminate.
Qed.

(** C7, amended: for an invocation that parses and reaches the dispatch
    (the logging configuration and the construction of the client
    succeed), [main] returns 0 when the order call returns a response, 1
    when the exchange client raises an API or order exception, 2 when the
    local validation fails with its [ValueError] (and for a [ValueError] of
    the client), 3 for any other exception below [Exception]; in these
    cases no exception leaves [main].  An exception of the client that is
    not below [Exception] leaves [main]. *)
Theorem main_exit_codes env argv args :
  parse_args argv = Parsed args ->
  reaches_dispatch env args ->
  (forall exc, build_kwargs args = inl exc ->
     exn_cls exc = ValueError /\
     status (main env argv) = Returned 2 /\
     order_calls (after (main env argv)) = []) /\
  (forall kw, build_kwargs args = inr kw ->
     exists sent,
       order_calls (after (main env argv)) = [sent] /\
       match exchange env sent with
       | Response _ => status (main env argv) = Returned 0
       | Failure exc =>
           (isinstance exc [BinanceAPIException; BinanceOrderException] = true ->
              status (main env argv) = Returned 1) /\
           (isinstance exc [BinanceAPIException; BinanceOrderException] = false ->
            isinstance exc [ValueError] = true ->
              status (main env argv) = Returned 2) /\
           (isinstance exc [BinanceAPIException; BinanceOrderException] = false ->
            isinstance exc [ValueError] = false ->
            isinstance exc [Exception_] = true ->
              status (main env argv) = Returned 3) /\
           (isinstance exc [Exception_] = false ->
              status (main env argv) = Uncaught exc)
       end) /\
  (forall code, status (main env argv) <> SystemExit code).
Proof.
  intros Hp Hr. split_and!.
  - intros exc Hk. split; [by apply build_kwargs_rejected in Hk|].
    destruct (main_rejected env argv args exc Hp Hk) as [Hcalls Hret].
    by destruct (Hret Hr).
  - intros kw Hk.
    destruct (parse_args_ok argv args Hp) as (_ & Hty & _).
    destruct (accepted_cases (exchange env) args kw Hty Hk) as (h & sent & He & _).
    destruct (main_dispatched env argv args kw h sent Hp Hr He) as [Hexit Hcalls].
    exists sent. split; [exact Hcalls|].
    rewrite Hexit. destruct (exchange env sent) as [r|exc]; [done|].
    unfold exit_code. split_and!.
    + intros Hb. by rewrite (binance_below_Exception exc Hb), Hb.
    + intros Hb Hv. by rewrite (ValueError_below_Exception exc Hv), Hb, Hv.
    + by intros -> -> ->.
    + by intros ->.
  - intros code. destruct (main_reached env argv args Hp Hr) as [-> _].
    by destruct (handled _).
Qed.

Lemma main_exit_codes_witness :
  parse_args market_with_prices_argv = Parsed market_with_prices_args /\
  reaches_dispatch (env_of rejecting_client true) market_with_prices_args /\
  (forall exc, build_kwargs market_with_prices_args = inl exc ->
     exn_cls exc = ValueError /\
     status (main (env_of rejecting_client true) market_with_prices_argv)
     = Returned 2 /\
     order_calls (after (main (env_of rejecting_client true)
                           market_with_prices_argv)) = []) /\
  (forall kw, build_kwargs market_with_prices_args = inr kw ->
     exists sent,
       order_calls (after (main (env_of rejecting_client true)
                             market_with_prices_argv)) = [sent] /\
       match exchange (env_of rejecting_client true) sent with
       | Response _ =>
           status (main (env_of rejecting_client true) market_with_prices_argv)
           = Returned 0
       | Failure exc =>
           (isinstance exc [BinanceAPIException; BinanceOrderException] = true ->
              status (main (env_of rejecting_client true) market_with_prices_argv)
              = Returned 1) /\
           (isinstance exc [BinanceAPIException; BinanceOrderException] = false ->
            isinstance exc [ValueError] = true ->
              status (main (env_of rejecting_client true) market_with_prices_argv)
              = Returned 2) /\
           (isinstance exc [BinanceAPIException; BinanceOrderException] = false ->
            isinstance exc [ValueError] = false ->
            isinstance exc [Exception_] = true ->
              status (main (env_of rejecting_client true) market_with_prices_argv)
              = Returned 3) /\
           (isinstance exc [Exception_] = false ->
              status (main (env_of rejecting_client true) market_with_prices_argv)
              = Uncaught exc)
       end) /\
  (forall code,
     status (main (env_of rejecting_client true) market_with_prices_argv)
     <> SystemExit code).
Proof.
  split; [reflexivity|]. split; [reflexivity|].
  apply (main_exit_codes (env_of rejecting_client true) market_with_prices_argv
           market_with_prices_args); reflexivity.
Defined.

(** C10, as the claim states it, fails: a [--price] given with
    [--type MARKET] is not ignored when [PositiveDecimal] refuses its
    value.  The first invocation below places its order; the second is the
    same with [--price -5] added, and it ends at the parse with status 2,
    without an order. *)
Lemma market_ignores_prices_counterexample :
  last_given given_type market_argv = Some "MARKET" /\
  status (main (env_of accepting_client true) market_argv) = Returned 0 /\
  order_calls (after (main (env_of accepting_client true) market_argv))
  = [ <["symbol" := VStr "BTCUSDT"]> (<["side" := VStr "BUY"]>
      (<["type" := VStr "MARKET"]> {["quantity" := VFloat one]})) ] /\
  market_refused_price_argv
  = market_argv ++ [OptPrice (IsDecimal (DecFinite true 5 0))] /\
  last_given given_type market_refused_price_argv = Some "MARKET" /\
  status (main (env_of accepting_client true) market_refused_price_argv)
  = SystemExit 2 /\
  order_calls (after (main (env_of accepting_client true)
                        market_refused_price_argv)) = [].
Proof. split_and!; try reflexivity; vm_compute; reflexivity. Qed.

(** C10, amended: for an invocation that parses (so every [--price] and
    [--stop-price] on it has a value [PositiveDecimal] accepts) and whose
    order type is MARKET, [execute_order] forwards neither [price] nor
    [stop_price]: the run is the same whatever their values, and the
    request parameters of a call have neither [price] nor [stopPrice]; the
    call is made when the set-up succeeds.  Whatever the order type, the
    request parameters of a call have [reduceOnly] bound to true when
    [--reduce-only] is on the command line and have no [reduceOnly]
    otherwise, so never [reduceOnly] bound to false. *)
Theorem market_ignores_prices env argv args :
  parse_args argv = Parsed args ->
  (default "MARKET" (last_given given_type argv) = "MARKET" ->
     (exists kw,
        build_kwargs args = inr kw /\
        kw_price kw = None /\ kw_stop_price kw = None) /\
     (forall price stop_price,
        run (exchange env) (connect_client env) (with_prices price stop_price args)
        = run (exchange env) (connect_client env) args) /\
     (forall sent, sent ∈ order_calls (after (main env argv)) ->
        sent !! "price" = None /\ sent !! "stopPrice" = None) /\
     (reaches_dispatch env args ->
        exists sent, order_calls (after (main env argv)) = [sent])) /\
  (forall sent, sent ∈ order_calls (after (main env argv)) ->
     sent !! "reduceOnly"
       = (if bool_decide (OptReduceOnly ∈ argv) then Some (VBool true) else None) /\
     sent !! "reduceOnly" <> Some (VBool false)).
Proof.
  intros Hp.
  destruct (parse_args_ok argv args Hp) as (_ & Hchoice & _).
  destruct (parse_args_reads argv args Hp) as (_ & _ & _ & _ & _ & _ & Rty & _ & _ & _ & _ & Rro).
  simpl in Rty, Rro.
  split.
  - intros Hty. rewrite Hty in Rty.
    destruct (execute_order_market (exchange env) args Rty)
      as (kw & h0 & Hk & Hkp & Hks & _).
    destruct (execute_order_accepted (exchange env) args kw Hchoice Hk)
      as (h & sent & He & _ & _ & Hm).
    destruct (Hm Rty) as (_ & _ & Hsp & Hss).
    destruct (main_calls env argv args kw h sent Hp He) as [Hall Hone].
    split_and!.
    + by exists kw.
    + intros price stop_price. by apply market_run.
    + intros s Hin. by rewrite (Hall s Hin).
    + intros Hr. exists sent. by apply Hone.
  - intros sent Hin.
    assert (Hred : sent !! "reduceOnly" = VBool <$> cli_reduce_only args).
    { destruct (parsed_cases env argv args Hp)
        as [(exc & _ & Hcalls)|(kw & h0 & sent0 & Hk & _)].
      - rewrite Hcalls in Hin. by apply elem_of_nil in Hin.
      - destruct (execute_order_accepted (exchange env) args kw Hchoice Hk)
          as (h & sent' & He & Hr & _).
        destruct (main_calls env argv args kw h sent' Hp He) as [Hall _].
        by rewrite (Hall sent Hin). }
    rewrite Hred. unfold cli_reduce_only. rewrite Rro.
    by destruct (bool_decide (OptReduceOnly ∈ argv)).
Qed.

Lemma market_ignores_prices_witness :
  parse_args market_with_prices_argv = Parsed market_with_prices_args /\
  (default "MARKET" (last_given given_type market_with_prices_argv) = "MARKET" ->
     (exists kw,
        build_kwargs market_with_prices_args = inr kw /\
        kw_price kw = None /\ kw_stop_price kw = None) /\
     (forall price stop_price,
        run (exchange (env_of accepting_client true))
            (connect_client (env_of accepting_client true))
            (with_prices price stop_price market_with_prices_args)
        = run (exchange (env_of accepting_client true))
              (connect_client (env_of accepting_client true))
              market_with_prices_args) /\
     (forall sent,
        sent ∈ order_calls (after (main (env_of accepting_client true)
                                     market_with_prices_argv)) ->
        sent !! "price" = None /\ sent !! "stopPrice" = None) /\
     (reaches_dispatch (env_of accepting_client true) market_with_prices_args ->
        exists sent,
          order_calls (after (main (env_of accepting_client true)
                                market_with_prices_argv)) = [sent])) /\
  (forall sent,
     sent ∈ order_calls (after (main (env_of accepting_client true)
                                  market_with_prices_argv)) ->
     sent !! "reduceOnly"
       = (if bool_decide (OptReduceOnly ∈ market_with_prices_argv)
          then Some (VBool true) else None) /\
     sent !! "reduceOnly" <> Some (VBool false)).
Proof.
  split; [reflexivity|].
  apply (market_ignores_prices (env_of accepting_client true)
           market_with_prices_argv market_with_prices_args).
  reflexivity.
Defined.

(** * Further properties *)

(** ** Upper-casing *)

Lemma upper_ascii_idemp c : upper_ascii (upper_ascii c) = upper_ascii c.
Proof. by destruct c as [[] [] [] [] [] [] [] []]. Qed.

Lemma upper_idemp s : upper (upper s) = upper s.
Proof.
  induction s as [|c s IH]; simpl; [done|]. by rewrite upper_ascii_idemp, IH.
Qed.

(** ** More on [to_request_params] *)

(** X1: the request parameters always have the four keys symbol, side,
    type and quantity, they have every key of [extra_params], and they
    have no key besides those of [extra_params] and the eight computed
    ones. *)
Theorem request_params_keys w self o extra :
  holds_order w self o extra ->
  exists d, request_params_of w self = Some d /\
    required_keys ⊆ dom d /\
    dom extra ⊆ dom d /\
    dom d ⊆ dom extra ∪ computed_keys.
Proof.
  intros Hw. eexists; split; [by apply request_params_of_eq|].
  split_and!; intros k; rewrite !elem_of_dom.
  - unfold required_keys. rewrite !elem_of_union, !elem_of_singleton.
    rewrite merged_lookup. intros Hk.
    destruct (extra !! k); [by eexists|].
    destruct Hk as [[[->| ->]| ->]| ->]; by eexists.
  - rewrite merged_lookup. intros [v ->]. by eexists.
  - rewrite merged_lookup, elem_of_union, elem_of_dom.
    destruct (extra !! k) as [v|]; [left; by eexists|].
    intros Hk. right. unfold computed_entry in Hk. unfold computed_keys.
    repeat case_decide; subst; set_solver.
Qed.

Lemma request_params_keys_witness :
  holds_order (store_of extra_signature limit_order) 1 limit_order extra_signature /\
  exists d, request_params_of (store_of extra_signature limit_order) 1 = Some d /\
    required_keys ⊆ dom d /\
    dom extra_signature ⊆ dom d /\
    dom d ⊆ dom extra_signature ∪ computed_keys.
Proof.
  split.
  - by apply holds_order_store_of.
  - apply (request_params_keys (store_of extra_signature limit_order) 1 limit_order
             extra_signature).
    by apply holds_order_store_of.
Defined.

(** X2: [to_request_params] reads symbol, side and order type through
    [upper] only: two orders whose symbol, side and order type agree up to
    letter case, and whose other fields and extra parameters are the same,
    get the same request parameters. *)
Theorem request_params_case_insensitive w1 self1 o1 w2 self2 o2 extra :
  holds_order w1 self1 o1 extra ->
  holds_order w2 self2 o2 extra ->
  upper (symbol o1) = upper (symbol o2) ->
  upper (side o1) = upper (side o2) ->
  upper (order_type o1) = upper (order_type o2) ->
  quantity o1 = quantity o2 ->
  price o1 = price o2 ->
  time_in_force o1 = time_in_force o2 ->
  stop_price o1 = stop_price o2 ->
  reduce_only o1 = reduce_only o2 ->
  is_Some (request_params_of w1 self1) /\
  request_params_of w1 self1 = request_params_of w2 self2.
Proof.
  intros H1 H2 Hsym Hside Hty Hq Hp Htif Hsp Hro.
  rewrite (request_params_of_eq _ _ _ _ H1), (request_params_of_eq _ _ _ _ H2).
  split; [by eexists|]. f_equal. f_equal.
  unfold computed_params. by rewrite Hsym, Hside, Hty, Hq, Hp, Htif, Hsp, Hro.
Qed.

Lemma request_params_case_insensitive_witness :
  holds_order (store_of extra_symbol limit_order) 1 limit_order extra_symbol /\
  holds_order (store_of extra_symbol upper_limit_order) 1 upper_limit_order
              extra_symbol /\
  is_Some (request_params_of (store_of extra_symbol limit_order) 1) /\
  request_params_of (store_of extra_symbol limit_order) 1
  = request_params_of (store_of extra_symbol upper_limit_order) 1.
Proof.
  split; [by apply holds_order_store_of|].
  split; [by apply holds_order_store_of|].
  apply (request_params_case_insensitive
           (store_of extra_symbol limit_order) 1 limit_order
           (store_of extra_symbol upper_limit_order) 1 upper_limit_order
           extra_symbol); try reflexivity; by apply holds_order_store_of.
Defined.

(** X3: the symbol, side and type that [to_request_params] computes are
    already in upper case: upper-casing them again changes nothing. *)
Theorem computed_text_is_upper w self o extra k :
  holds_order w self o extra ->
  k ∈ ["symbol"; "side"; "type"] ->
  extra !! k = None ->
  exists d s, request_params_of w self = Some d /\
    d !! k = Some (VStr s) /\ upper s = s.
Proof.
  intros Hw Hk Hex. eexists. 
  set_unfold in Hk. destruct Hk as [->|[->|[->|[]]]];
    eexists; (split; [by apply request_params_of_eq|]);
    rewrite merged_lookup, Hex; (split; [reflexivity|]); apply upper_idemp.
Qed.

Lemma computed_text_is_upper_witness :
  holds_order (store_of extra_signature limit_order) 1 limit_order extra_signature /\
  "type" ∈ ["symbol"; "side"; "type"] /\
  extra_signature !! "type" = None /\
  exists d s, request_params_of (store_of extra_signature limit_order) 1 = Some d /\
    d !! "type" = Some (VStr s) /\ upper s = s.
Proof.
  assert (Hin : "type" ∈ ["symbol"; "side"; "type"]) by (repeat constructor).
  split; [by apply holds_order_store_of|]. split; [exact Hin|].
  split; [reflexivity|].
  apply (computed_text_is_upper (store_of extra_signature limit_order) 1 limit_order
           extra_signature "type");
    [by apply holds_order_store_of | exact Hin | reflexivity].
Defined.

(** ** More on [_sanitize_for_logging] *)

(** X4: a dictionary without a [signature] entry is copied as it is, and
    sanitizing the result of [_sanitize_for_logging] once more gives a
    further new dictionary with the same entries. *)
Theorem sanitize_copy_and_idempotent w params d :
  heap w !! params = Some (ODict d) ->
  exists l1 w1 l2 w2 d1,
    _sanitize_for_logging params w = Ret l1 w1 /\
    heap w1 !! l1 = Some (ODict d1) /\
    (d !! "signature" = None -> d1 = d) /\
    _sanitize_for_logging l1 w1 = Ret l2 w2 /\
    l2 <> l1 /\
    heap w2 !! l2 = Some (ODict d1) /\
    heap w2 !! l1 = Some (ODict d1).
Proof.
  intros Hp.
  eexists _, _, _, _, _. split; [by apply sanitize_run|]. simpl.
  split; [apply heap_lookup_last|].
  split; [apply delete_id|].
  split; [apply sanitize_run; simpl; apply heap_lookup_last|]. simpl.
  rewrite length_app; simpl.
  split; [lia|]. split.
  - replace (length (heap w) + 1)
      with (length (heap w ++ [ODict (delete "signature" d)]))
      by (rewrite length_app; simpl; lia).
    rewrite heap_lookup_last. by rewrite delete_delete_eq.
  - rewrite heap_lookup_old by (rewrite heap_lookup_last; by eexists).
    apply heap_lookup_last.
Qed.

Lemma sanitize_copy_and_idempotent_witness :
  heap (store_with extra_signature) !! 0 = Some (ODict extra_signature) /\
  exists l1 w1 l2 w2 d1,
    _sanitize_for_logging 0 (store_with extra_signature) = Ret l1 w1 /\
    heap w1 !! l1 = Some (ODict d1) /\
    (extra_signature !! "signature" = None -> d1 = extra_signature) /\
    _sanitize_for_logging l1 w1 = Ret l2 w2 /\
    l2 <> l1 /\
    heap w2 !! l2 = Some (ODict d1) /\
    heap w2 !! l1 = Some (ODict d1).
Proof.
  split; [reflexivity|].
  apply (sanitize_copy_and_idempotent (store_with extra_signature) 0 extra_signature).
  reflexivity.
Defined.

(** ** Runs that end in [place_order] *)

Lemma order_calls_placed client w new sent :
  order_calls (final_world (placed client w new sent)) = order_calls w ++ [sent].
Proof.
  unfold placed, order_calls.
  destruct (client sent) as [resp|exc]; simpl; rewrite !omap_app; simpl.
  - by rewrite app_nil_r.
  - unfold failure_records.
    destruct (isinstance exc [BinanceAPIException; BinanceOrderException]);
      [|destruct (isinstance exc [Exception_])];
      rewrite ?omap_app; simpl; by rewrite ?app_nil_r.
Qed.

Lemma placed_facts client w new sent :
  calls_once w sent (placed client w new sent) /\
  keeps_store w (placed client w new sent) /\
  relays client sent (placed client w new sent).
Proof.
  split; [apply order_calls_placed|]. split.
  - intros l Hl. unfold placed.
    destruct (client sent); simpl; by apply extended_store_frame.
  - unfold relays, placed. destruct (client sent); by eexists.
Qed.

Lemma place_order_placed client w order o extra :
  holds_order w order o extra ->
  place_order client order w = placed client w [] (extra ∪ computed_params o).
Proof. intros Hw. by rewrite (place_order_run client _ _ _ _ Hw). Qed.

Lemma or_empty_run w extra d :
  extra_given w extra d ->
  exists l new,
    or_empty extra w = Ret l (mkWorld (heap w ++ new) (trace w)) /\
    (heap w ++ new) !! l = Some (ODict d).
Proof.
  destruct w as [h t]. destruct extra as [l|]; simpl.
  - intros Hl. unfold or_empty, bind, get_dict; simpl. rewrite Hl.
    case_bool_decide as Hd.
    + subst d. exists (length h), [ODict ∅]. split; [done|]. apply heap_lookup_last.
    + exists l, []. rewrite app_nil_r. by split.
  - intros ->. exists (length h), [ODict ∅]. split; [done|]. apply heap_lookup_last.
Qed.

Lemma new_order_placed client h t new o d :
  (h ++ new) !! extra_params o = Some (ODict d) ->
  (order <- new_object (OOrderRequest o) ;; place_order client order)
    (mkWorld (h ++ new) t)
  = placed client (mkWorld h t) (new ++ [OOrderRequest o]) (d ∪ computed_params o).
Proof.
  intros Hd. unfold bind at 1, new_object; simpl.
  rewrite (place_order_placed client _ _ o d).
  - unfold placed; simpl. rewrite <- !app_assoc. done.
  - split; simpl.
    + apply heap_lookup_last.
    + rewrite heap_lookup_old by (by rewrite Hd). done.
Qed.

(** X5: [place_order] calls the exchange client exactly once, with the
    request parameters of the order; it returns the client's response as it
    is and lets the client's exception through as it is, after one ERROR
    record whose message tells an API or order exception from any other
    exception below [Exception], and without a record for an exception that
    is not below [Exception] (the client call is then the last event); no
    object that existed before the call is changed. *)
Theorem place_order_relays client w order o extra :
  holds_order w order o extra ->
  exists sent,
    request_params_of w order = Some sent /\
    calls_once w sent (place_order client order w) /\
    keeps_store w (place_order client order w) /\
    relays client sent (place_order client order w) /\
    match client sent with
    | Response resp =>
        last (trace (final_world (place_order client order w)))
        = Some (Log INFO "Order response: %s" [LDict resp])
    | Failure exc =>
        last (trace (final_world (place_order client order w)))
        = if isinstance exc [Exception_]
          then Some (Log ERROR
                       (if isinstance exc [BinanceAPIException; BinanceOrderException]
                        then "Binance API error: %s"
                        else "Unexpected error when placing order: %s")
                       [LExn exc])
          else Some (CreateOrder sent)
    end.
Proof.
  intros Hw. exists (extra ∪ computed_params o).
  split; [by apply request_params_of_eq|].
  rewrite (place_order_placed client _ _ _ _ Hw).
  destruct (placed_facts client w [] (extra ∪ computed_params o)) as (Hc & Hk & Hr).
  split; [exact Hc|]. split; [exact Hk|]. split; [exact Hr|].
  unfold placed.
  destruct (client (extra ∪ computed_params o)) as [resp|exc]; cbn [final_world trace].
  - by rewrite last_snoc.
  - unfold failure_records.
    destruct (isinstance exc [BinanceAPIException; BinanceOrderException]) eqn:Hb.
    + rewrite (binance_below_Exception exc Hb). by rewrite last_snoc.
    + destruct (isinstance exc [Exception_]).
      * by rewrite last_snoc.
      * by rewrite app_nil_r, last_app.
Qed.

Lemma place_order_relays_witness :
  holds_order (store_of extra_signature limit_order) 1 limit_order extra_signature /\
  exists sent,
    request_params_of (store_of extra_signature limit_order) 1 = Some sent /\
    calls_once (store_of extra_signature limit_order) sent
      (place_order rejecting_client 1 (store_of extra_signature limit_order)) /\
    keeps_store (store_of extra_signature limit_order)
      (place_order rejecting_client 1 (store_of extra_signature limit_order)) /\
    relays rejecting_client sent
      (place_order rejecting_client 1 (store_of extra_signature limit_order)) /\
    match rejecting_client sent with
    | Response resp =>
        last (trace (final_world
                (place_order rejecting_client 1
                   (store_of extra_signature limit_order))))
        = Some (Log INFO "Order response: %s" [LDict resp])
    | Failure exc =>
        last (trace (final_world
                (place_order rejecting_client 1
                   (store_of extra_signature limit_order))))
        = if isinstance exc [Exception_]
          then Some (Log ERROR
                       (if isinstance exc [BinanceAPIException; BinanceOrderException]
                        then "Binance API error: %s"
                        else "Unexpected error when placing order: %s")
                       [LExn exc])
          else Some (CreateOrder sent)
    end.
Proof.
  split.
  - by apply holds_order_store_of.
  - apply (place_order_relays rejecting_client (store_of extra_signature limit_order)
             1 limit_order extra_signature).
    by apply holds_order_store_of.
Defined.

Lemma place_market_order_placed client w sym sd q ro extra d :
  extra_given w extra d ->
  exists new,
    place_market_order client sym sd q ro extra w
    = placed client w new
        (d ∪ computed_params (mkOrderRequest sym sd "MARKET" q None "GTC" None ro 0)).
Proof.
  intros Hd. destruct (or_empty_run w extra d Hd) as (l & new & Hrun & Hl).
  destruct w as [h t]; simpl in *.
  exists (new ++ [OOrderRequest (mkOrderRequest sym sd "MARKET" q None "GTC" None ro l)]).
  unfold place_market_order. unfold bind at 1. rewrite Hrun.
  by rewrite (new_order_placed client h t new _ d).
Qed.

Lemma place_limit_order_placed client w sym sd q p tif ro extra d :
  extra_given w extra d ->
  exists new,
    place_limit_order client sym sd q p tif ro extra w
    = placed client w new
        (d ∪ computed_params (mkOrderRequest sym sd "LIMIT" q (Some p) tif None ro 0)).
Proof.
  intros Hd. destruct (or_empty_run w extra d Hd) as (l & new & Hrun & Hl).
  destruct w as [h t]; simpl in *.
  exists (new ++ [OOrderRequest (mkOrderRequest sym sd "LIMIT" q (Some p) tif None ro l)]).
  unfold place_limit_order. unfold bind at 1. rewrite Hrun.
  by rewrite (new_order_placed client h t new _ d).
Qed.

Lemma place_stop_limit_order_placed client w sym sd q p sp tif ro extra d :
  extra_given w extra d ->
  exists new,
    place_stop_limit_order client sym sd q p sp tif ro extra w
    = placed client w new
        ((d ∪ working_type)
           ∪ computed_params (mkOrderRequest sym sd "STOP" q (Some p) tif (Some sp) ro 0)).
Proof.
  intros Hd. destruct (or_empty_run w extra d Hd) as (l & new & Hrun & Hl).
  destruct w as [h t]; simpl in *.
  exists ((new ++ [ODict (d ∪ working_type)])
            ++ [OOrderRequest (mkOrderRequest sym sd "STOP" q (Some p) tif (Some sp) ro
                                 (length (h ++ new)))]).
  unfold place_stop_limit_order. unfold bind at 1. rewrite Hrun.
  unfold bind at 1, get_dict at 1; simpl. rewrite Hl.
  unfold bind at 1, new_object at 1; simpl.
  rewrite <- (app_assoc h new).
  rewrite (new_order_placed client h t (new ++ [ODict (d ∪ working_type)]) _
             (d ∪ working_type)).
  - done.
  - simpl. rewrite app_assoc. apply heap_lookup_last.
Qed.

(** X6: [place_market_order] sends the given extra parameters merged over
    symbol, side, type=MARKET, quantity and, when it is set, reduceOnly:
    neither price, stopPrice nor timeInForce unless the extra parameters
    have them.  It calls the client once, hands its answer on, and leaves
    the caller's dictionary and every other object as they were. *)
Theorem place_market_order_run client w sym sd q ro extra d :
  extra_given w extra d ->
  exists sent,
    calls_once w sent (place_market_order client sym sd q ro extra w) /\
    keeps_store w (place_market_order client sym sd q ro extra w) /\
    relays client sent (place_market_order client sym sd q ro extra w) /\
    (forall k, sent !! k
               = match d !! k with
                 | Some v => Some v
                 | None => computed_entry
                             (mkOrderRequest sym sd "MARKET" q None "GTC" None ro 0) k
                 end) /\
    sent !! "price" = d !! "price" /\
    sent !! "stopPrice" = d !! "stopPrice" /\
    sent !! "timeInForce" = d !! "timeInForce".
Proof.
  intros Hd.
  destruct (place_market_order_placed client w sym sd q ro extra d Hd) as [new ->].
  eexists. split; [apply placed_facts|]. split; [apply placed_facts|].
  split; [apply placed_facts|]. split_and!.
  - intros k. apply merged_lookup.
  - rewrite merged_lookup. by destruct (d !! "price").
  - rewrite merged_lookup. by destruct (d !! "stopPrice").
  - rewrite merged_lookup. by destruct (d !! "timeInForce").
Qed.

Lemma place_market_order_run_witness :
  extra_given (store_with extra_signature) (Some 0) extra_signature /\
  exists sent,
    calls_once (store_with extra_signature) sent
      (place_market_order accepting_client "btcusdt" "buy" one None (Some 0)
         (store_with extra_signature)) /\
    keeps_store (store_with extra_signature)
      (place_market_order accepting_client "btcusdt" "buy" one None (Some 0)
         (store_with extra_signature)) /\
    relays accepting_client sent
      (place_market_order accepting_client "btcusdt" "buy" one None (Some 0)
         (store_with extra_signature)) /\
    (forall k, sent !! k
               = match extra_signature !! k with
                 | Some v => Some v
                 | None => computed_entry
                             (mkOrderRequest "btcusdt" "buy" "MARKET" one None "GTC"
                                             None None 0) k
                 end) /\
    sent !! "price" = extra_signature !! "price" /\
    sent !! "stopPrice" = extra_signature !! "stopPrice" /\
    sent !! "timeInForce" = extra_signature !! "timeInForce".
Proof.
  split; [reflexivity|].
  apply (place_market_order_run accepting_client (store_with extra_signature)
           "btcusdt" "buy" one None (Some 0) extra_signature).
  reflexivity.
Defined.

(** X7: [place_limit_order] sends the given extra parameters merged over
    symbol, side, type=LIMIT, quantity, price, the given timeInForce and,
    when it is set, reduceOnly; it has no stopPrice unless the extra
    parameters have one.  It calls the client once, hands its answer on,
    and leaves every object that existed as it was. *)
Theorem place_limit_order_run client w sym sd q p tif ro extra d :
  extra_given w extra d ->
  exists sent,
    calls_once w sent (place_limit_order client sym sd q p tif ro extra w) /\
    keeps_store w (place_limit_order client sym sd q p tif ro extra w) /\
    relays client sent (place_limit_order client sym sd q p tif ro extra w) /\
    (forall k, sent !! k
               = match d !! k with
                 | Some v => Some v
                 | None => computed_entry
                             (mkOrderRequest sym sd "LIMIT" q (Some p) tif None ro 0) k
                 end) /\
    (d !! "price" = None -> sent !! "price" = Some (VFloat p)) /\
    (d !! "timeInForce" = None -> sent !! "timeInForce" = Some (VStr tif)) /\
    sent !! "stopPrice" = d !! "stopPrice".
Proof.
  intros Hd.
  destruct (place_limit_order_placed client w sym sd q p tif ro extra d Hd) as [new ->].
  eexists. split; [apply placed_facts|]. split; [apply placed_facts|].
  split; [apply placed_facts|]. split_and!.
  - intros k. apply merged_lookup.
  - rewrite merged_lookup. by intros ->.
  - rewrite merged_lookup. by intros ->.
  - rewrite merged_lookup. by destruct (d !! "stopPrice").
Qed.

Lemma place_limit_order_run_witness :
  extra_given initial_world None ∅ /\
  exists sent,
    calls_once initial_world sent
      (place_limit_order accepting_client "btcusdt" "buy" one hundred "IOC" None None
         initial_world) /\
    keeps_store initial_world
      (place_limit_order accepting_client "btcusdt" "buy" one hundred "IOC" None None
         initial_world) /\
    relays accepting_client sent
      (place_limit_order accepting_client "btcusdt" "buy" one hundred "IOC" None None
         initial_world) /\
    (forall k, sent !! k
               = match (∅ : gmap string value) !! k with
                 | Some v => Some v
                 | None => computed_entry
                             (mkOrderRequest "btcusdt" "buy" "LIMIT" one (Some hundred)
                                             "IOC" None None 0) k
                 end) /\
    ((∅ : gmap string value) !! "price" = None ->
       sent !! "price" = Some (VFloat hundred)) /\
    ((∅ : gmap string value) !! "timeInForce" = None ->
       sent !! "timeInForce" = Some (VStr "IOC")) /\
    sent !! "stopPrice" = (∅ : gmap string value) !! "stopPrice".
Proof.
  split; [reflexivity|].
  apply (place_limit_order_run accepting_client initial_world
           "btcusdt" "buy" one hundred "IOC" None None ∅).
  reflexivity.
Defined.

(** X8: [place_stop_limit_order] sends type=STOP with price, stopPrice and
    timeInForce (unless the extra parameters replace them), and
    workingType=CONTRACT_PRICE unless the extra parameters give another
    working type; every extra parameter is sent as given.  The caller's
    dictionary is not written to: the working type goes into a new one. *)
Theorem place_stop_limit_order_run client w sym sd q p sp tif ro extra d :
  extra_given w extra d ->
  exists sent,
    calls_once w sent (place_stop_limit_order client sym sd q p sp tif ro extra w) /\
    keeps_store w (place_stop_limit_order client sym sd q p sp tif ro extra w) /\
    relays client sent (place_stop_limit_order client sym sd q p sp tif ro extra w) /\
    (forall k v, d !! k = Some v -> sent !! k = Some v) /\
    sent !! "workingType"
      = Some (default (VStr "CONTRACT_PRICE") (d !! "workingType")) /\
    (forall k, d !! k = None -> k <> "workingType" ->
       sent !! k = computed_entry
                     (mkOrderRequest sym sd "STOP" q (Some p) tif (Some sp) ro 0) k) /\
    (d !! "type" = None -> sent !! "type" = Some (VStr "STOP")).
Proof.
  intros Hd.
  destruct (place_stop_limit_order_placed client w sym sd q p sp tif ro extra d Hd)
    as [new ->].
  eexists. split; [apply placed_facts|]. split; [apply placed_facts|].
  split; [apply placed_facts|].
  assert (Hwt : forall k, (d ∪ working_type) !! k
                 = match d !! k with
                   | Some v => Some v
                   | None => working_type !! k
                   end).
  { intros k. rewrite lookup_union. by destruct (d !! k), (working_type !! k). }
  split_and!.
  - intros k v Hk. by rewrite merged_lookup, Hwt, Hk.
  - rewrite merged_lookup, Hwt. by destruct (d !! "workingType").
  - intros k Hk Hne. rewrite merged_lookup, Hwt, Hk.
    unfold working_type. by rewrite lookup_singleton_ne.
  - intros Hk. by rewrite merged_lookup, Hwt, Hk.
Qed.

Lemma place_stop_limit_order_run_witness :
  extra_given (store_with extra_working_type) (Some 0) extra_working_type /\
  exists sent,
    calls_once (store_with extra_working_type) sent
      (place_stop_limit_order accepting_client "btcusdt" "sell" one hundred
         ninety_five "GTC" (Some false) (Some 0) (store_with extra_working_type)) /\
    keeps_store (store_with extra_working_type)
      (place_stop_limit_order accepting_client "btcusdt" "sell" one hundred
         ninety_five "GTC" (Some false) (Some 0) (store_with extra_working_type)) /\
    relays accepting_client sent
      (place_stop_limit_order accepting_client "btcusdt" "sell" one hundred
         ninety_five "GTC" (Some false) (Some 0) (store_with extra_working_type)) /\
    (forall k v, extra_working_type !! k = Some v -> sent !! k = Some v) /\
    sent !! "workingType"
      = Some (default (VStr "CONTRACT_PRICE") (extra_working_type !! "workingType")) /\
    (forall k, extra_working_type !! k = None -> k <> "workingType" ->
       sent !! k = computed_entry
                     (mkOrderRequest "btcusdt" "sell" "STOP" one (Some hundred) "GTC"
                                     (Some ninety_five) (Some false) 0) k) /\
    (extra_working_type !! "type" = None -> sent !! "type" = Some (VStr "STOP")).
Proof.
  split; [reflexivity|].
  apply (place_stop_limit_order_run accepting_client (store_with extra_working_type)
           "btcusdt" "sell" one hundred ninety_five "GTC" (Some false) (Some 0)
           extra_working_type).
  reflexivity.
Defined.

(** ** More on the command line *)




(** ** The request a command line sends *)

(** X11: a MARKET invocation sends exactly symbol (in upper case), side,
    type=MARKET and quantity, and reduceOnly=true when [--reduce-only] is
    given; [--price], [--stop-price] and [--time-in-force] leave no mark.
    Every call of the invocation is made with these parameters, and the
    call is made, once, when the set-up before the dispatch succeeds. *)
Theorem market_wire_parameters env argv args :
  parse_args argv = Parsed args ->
  args_order_type args = "MARKET" ->
  exists sent,
    sent = with_reduce_only (args_reduce_only args)
             (<["symbol" := VStr (upper (args_symbol args))]>
              (<["side" := VStr (args_side args)]>
              (<["type" := VStr "MARKET"]>
              {["quantity" := VFloat (args_quantity args)]}))) /\
    (forall s, s ∈ order_calls (after (main env argv)) -> s = sent) /\
    (reaches_dispatch env args -> order_calls (after (main env argv)) = [sent]).
Proof.
  intros Hp Hty.
  destruct (parse_args_ok argv args Hp) as (Hside & _).
  destruct (execute_order_market (exchange env) args Hty) as (kw & h & _ & _ & _ & He).
  rewrite (market_wire args Hside) in He.
  eexists. split; [reflexivity|]. by apply (main_calls env argv args kw h).
Qed.

Lemma market_wire_parameters_witness :
  parse_args market_with_prices_argv = Parsed market_with_prices_args /\
  args_order_type market_with_prices_args = "MARKET" /\
  exists sent,
    sent = with_reduce_only (args_reduce_only market_with_prices_args)
             (<["symbol" := VStr (upper (args_symbol market_with_prices_args))]>
              (<["side" := VStr (args_side market_with_prices_args)]>
              (<["type" := VStr "MARKET"]>
              {["quantity" := VFloat (args_quantity market_with_prices_args)]}))) /\
    (forall s,
       s ∈ order_calls (after (main (env_of accepting_client true)
                                 market_with_prices_argv)) -> s = sent) /\
    (reaches_dispatch (env_of accepting_client true) market_with_prices_args ->
     order_calls (after (main (env_of accepting_client true)
                           market_with_prices_argv)) = [sent]).
Proof.
  split; [reflexivity|]. split; [reflexivity|].
  apply (market_wire_parameters (env_of accepting_client true)
           market_with_prices_argv market_with_prices_args); reflexivity.
Defined.

(** X12: a LIMIT invocation with a price sends exactly symbol (in upper
    case), side, type=LIMIT, quantity, price, the chosen timeInForce, and
    reduceOnly=true when [--reduce-only] is given; a [--stop-price] leaves
    no mark.  Every call of the invocation is made with these parameters,
    and the call is made, once, when the set-up before the dispatch
    succeeds. *)
Theorem limit_wire_parameters env argv args p :
  parse_args argv = Parsed args ->
  args_order_type args = "LIMIT" ->
  args_price args = Some p ->
  exists sent,
    sent = with_reduce_only (args_reduce_only args)
             (<["symbol" := VStr (upper (args_symbol args))]>
              (<["side" := VStr (args_side args)]>
              (<["type" := VStr "LIMIT"]>
              (<["quantity" := VFloat (args_quantity args)]>
              (<["price" := VFloat p]>
              {["timeInForce" := VStr (args_time_in_force args)]}))))) /\
    (forall s, s ∈ order_calls (after (main env argv)) -> s = sent) /\
    (reaches_dispatch env args -> order_calls (after (main env argv)) = [sent]).
Proof.
  intros Hp Hty Hprice.
  destruct (parse_args_ok argv args Hp) as (Hside & _).
  destruct (execute_order_limit (exchange env) args p Hty Hprice) as (kw & h & _ & He).
  rewrite (limit_wire args p Hside) in He.
  eexists. split; [reflexivity|]. by apply (main_calls env argv args kw h).
Qed.

Lemma limit_wire_parameters_witness :
  parse_args limit_argv = Parsed limit_args /\
  args_order_type limit_args = "LIMIT" /\
  args_price limit_args = Some hundred /\
  exists sent,
    sent = with_reduce_only (args_reduce_only limit_args)
             (<["symbol" := VStr (upper (args_symbol limit_args))]>
              (<["side" := VStr (args_side limit_args)]>
              (<["type" := VStr "LIMIT"]>
              (<["quantity" := VFloat (args_quantity limit_args)]>
              (<["price" := VFloat hundred]>
              {["timeInForce" := VStr (args_time_in_force limit_args)]}))))) /\
    (forall s,
       s ∈ order_calls (after (main (env_of rejecting_client true) limit_argv)) ->
       s = sent) /\
    (reaches_dispatch (env_of rejecting_client true) limit_args ->
     order_calls (after (main (env_of rejecting_client true) limit_argv)) = [sent]).
Proof.
  split; [reflexivity|]. split; [reflexivity|]. split; [reflexivity|].
  apply (limit_wire_parameters (env_of rejecting_client true) limit_argv limit_args
           hundred); reflexivity.
Defined.

(** X13: a STOP_LIMIT invocation with a price and a stop price sends
    exactly symbol (in upper case), side, type=STOP, quantity, price,
    stopPrice, the chosen timeInForce, workingType=CONTRACT_PRICE, and
    reduceOnly=true when [--reduce-only] is given.  Every call of the
    invocation is made with these parameters, and the call is made, once,
    when the set-up before the dispatch succeeds. *)
Theorem stop_limit_wire_general env argv args p sp :
  parse_args argv = Parsed args ->
  args_order_type args = "STOP_LIMIT" ->
  args_price args = Some p ->
  args_stop_price args = Some sp ->
  exists sent,
    sent = with_reduce_only (args_reduce_only args)
             (<["symbol" := VStr (upper (args_symbol args))]>
              (<["side" := VStr (args_side args)]>
              (<["type" := VStr "STOP"]>
              (<["quantity" := VFloat (args_quantity args)]>
              (<["price" := VFloat p]>
              (<["stopPrice" := VFloat sp]>
              (<["timeInForce" := VStr (args_time_in_force args)]>
              {["workingType" := VStr "CONTRACT_PRICE"]}))))))) /\
    (forall s, s ∈ order_calls (after (main env argv)) -> s = sent) /\
    (reaches_dispatch env args -> order_calls (after (main env argv)) = [sent]).
Proof.
  intros Hp Hty Hprice Hstop.
  destruct (parse_args_ok argv args Hp) as (Hside & _).
  destruct (execute_order_stop_limit (exchange env) args p sp Hty Hprice Hstop)
    as (kw & h & _ & He).
  rewrite (stop_limit_wire args p sp Hside) in He.
  eexists. split; [reflexivity|]. by apply (main_calls env argv args kw h).
Qed.

Lemma stop_limit_wire_general_witness :
  parse_args stop_limit_argv = Parsed stop_limit_args /\
  args_order_type stop_limit_args = "STOP_LIMIT" /\
  args_price stop_limit_args = Some hundred /\
  args_stop_price stop_limit_args = Some ninety_five /\
  exists sent,
    sent = with_reduce_only (args_reduce_only stop_limit_args)
             (<["symbol" := VStr (upper (args_symbol stop_limit_args))]>
              (<["side" := VStr (args_side stop_limit_args)]>
              (<["type" := VStr "STOP"]>
              (<["quantity" := VFloat (args_quantity stop_limit_args)]>
              (<["price" := VFloat hundred]>
              (<["stopPrice" := VFloat ninety_five]>
              (<["timeInForce" := VStr (args_time_in_force stop_limit_args)]>
              {["workingType" := VStr "CONTRACT_PRICE"]}))))))) /\
    (forall s,
       s ∈ order_calls (after (main (env_of accepting_client true)
                                 stop_limit_argv)) -> s = sent) /\
    (reaches_dispatch (env_of accepting_client true) stop_limit_args ->
     order_calls (after (main (env_of accepting_client true) stop_limit_argv))
     = [sent]).
Proof.
  split; [reflexivity|]. split; [reflexivity|]. split; [reflexivity|].
  split; [reflexivity|].
  apply (stop_limit_wire_general (env_of accepting_client true) stop_limit_argv
           stop_limit_args hundred ninety_five); reflexivity.
Defined.

(** What [float(value)] makes of a positive decimal is not always positive
    and finite: a positive decimal below the range of the floats is stored
    as 0.0, and Infinity, which [PositiveDecimal] accepts, as inf. *)
Example tiny_quantity_stored :
  PositiveDecimal (IsDecimal (DecFinite false 1 (-400))) = Stored (S754_zero false).
Proof. vm_compute. reflexivity. Qed.

Example infinite_quantity_stored :
  PositiveDecimal (IsDecimal (DecInfinity false)) = Stored (S754_infinity false).
Proof. reflexivity. Qed.

(** X14: every quantity, price and stop price that reaches the exchange
    client from the command line is what [float] makes of a decimal that
    [PositiveDecimal] accepted: a positive decimal, Infinity included. *)
Theorem sent_numbers_accepted env argv args sent :
  parse_args argv = Parsed args ->
  sent ∈ order_calls (after (main env argv)) ->
  (exists q, sent !! "quantity" = Some (VFloat q) /\ accepted_float q) /\
  (forall v, sent !! "price" = Some v -> exists p, v = VFloat p /\ accepted_float p) /\
  (forall v, sent !! "stopPrice" = Some v ->
             exists sp, v = VFloat sp /\ accepted_float sp).
Proof.
  intros Hp Hin.
  destruct (parse_args_ok argv args Hp) as (_ & Hty & _ & Hq & Hpr & Hsp).
  destruct (build_kwargs args) as [exc|kw] eqn:Hk.
  { destruct (main_rejected env argv args exc Hp Hk) as [Hcalls _].
    rewrite Hcalls in Hin. by apply elem_of_nil in Hin. }
  destruct (accepted_cases (exchange env) args kw Hty Hk) as (h & sent' & He & Hcases).
  destruct (main_calls env argv args kw h sent' Hp He) as [Hall _].
  rewrite (Hall sent Hin).
  destruct Hcases
    as [(_ & _ & _ & ->)|[(_ & p & Hprice & ->)|(_ & p & sp & Hprice & Hstop & ->)]];
    rewrite !merged_lookup; simpl.
  - split_and!; [by eexists | done | done].
  - split_and!; [by eexists | | done].
    intros v [= <-]. exists p. split; [done|]. by apply Hpr.
  - split_and!; [by eexists | |].
    + intros v [= <-]. exists p. split; [done|]. by apply Hpr.
    + intros v [= <-]. exists sp. split; [done|]. by apply Hsp.
Qed.

Lemma sent_numbers_accepted_witness :
  parse_args stop_limit_argv = Parsed stop_limit_args /\
  exists sent,
    sent ∈ order_calls (after (main (env_of accepting_client true)
                                 stop_limit_argv)) /\
    (exists q, sent !! "quantity" = Some (VFloat q) /\ accepted_float q) /\
    (forall v, sent !! "price" = Some v ->
               exists p, v = VFloat p /\ accepted_float p) /\
    (forall v, sent !! "stopPrice" = Some v ->
               exists sp, v = VFloat sp /\ accepted_float sp).
Proof.
  split; [reflexivity|].
  assert (Hin : (working_type
                   ∪ computed_params (stop_limit_request stop_limit_args hundred
                                        ninety_five))
                ∈ order_calls (after (main (env_of accepting_client true)
                                        stop_limit_argv)))
    by (replace (order_calls (after (main (env_of accepting_client true)
                                       stop_limit_argv)))
          with [working_type
                  ∪ computed_params (stop_limit_request stop_limit_args hundred
                                       ninety_five)]
          by (vm_compute; reflexivity);
        constructor).
  eexists. split; [exact Hin|].
  apply (sent_numbers_accepted (env_of accepting_client true) stop_limit_argv
           stop_limit_args); [reflexivity | exact Hin].
Defined.

(** ** Validation, dispatch and the number of calls *)

(** X15: a STOP_LIMIT invocation without [--price] or without
    [--stop-price] never calls the exchange client; when the set-up before
    the [try] statement succeeds, [main] returns 2 after the ERROR record
    of the validation message. *)
Theorem stop_limit_incomplete env argv args :
  parse_args argv = Parsed args ->
  last_given given_type argv = Some "STOP_LIMIT" ->
  last_given given_price argv = None \/ last_given given_stop_price argv = None ->
  order_calls (after (main env argv)) = [] /\
  (reaches_dispatch env args ->
     status (main env argv) = Returned 2 /\
     last (trace (after (main env argv)))
     = Some (Log ERROR "Input validation error: %s"
               [LExn (mkExn ValueError
                        "--price and --stop-price are required for STOP_LIMIT orders")])).
Proof.
  intros Hp Hty Hmissing.
  destruct (parse_args_reads argv args Hp)
    as (_ & _ & _ & _ & _ & _ & Rty & _ & Rp & Rsp & _).
  rewrite Hty in Rty. simpl in Rty.
  assert (Hk : build_kwargs args
               = inl (mkExn ValueError
                        "--price and --stop-price are required for STOP_LIMIT orders")).
  { unfold build_kwargs. rewrite Rty; simpl.
    destruct Hmissing as [Hm|Hm]; rewrite Hm in *; simpl in *.
    - by rewrite Rp.
    - rewrite Rsp. by destruct (args_price args). }
  apply (main_rejected env argv args _ Hp Hk).
Qed.

Lemma stop_limit_incomplete_witness :
  parse_args stop_limit_without_stop_argv = Parsed stop_limit_without_stop_args /\
  last_given given_type stop_limit_without_stop_argv = Some "STOP_LIMIT" /\
  (last_given given_price stop_limit_without_stop_argv = None
     \/ last_given given_stop_price stop_limit_without_stop_argv = None) /\
  order_calls (after (main (env_of accepting_client true)
                        stop_limit_without_stop_argv)) = [] /\
  (reaches_dispatch (env_of accepting_client true) stop_limit_without_stop_args ->
     status (main (env_of accepting_client true) stop_limit_without_stop_argv)
     = Returned 2 /\
     last (trace (after (main (env_of accepting_client true)
                           stop_limit_without_stop_argv)))
     = Some (Log ERROR "Input validation error: %s"
               [LExn (mkExn ValueError
                        "--price and --stop-price are required for STOP_LIMIT orders")])).
Proof.
  split; [reflexivity|]. split; [reflexivity|]. split; [by right|].
  apply (stop_limit_incomplete (env_of accepting_client true)
           stop_limit_without_stop_argv stop_limit_without_stop_args);
    [reflexivity | reflexivity | by right].
Defined.

(** X16: one invocation calls the exchange client at most once, whatever
    the client answers (a failed call is not tried again), and exactly once
    when the arguments parse, the set-up before the dispatch succeeds and
    the cross-field checks pass. *)
Theorem at_most_one_call env argv :
  length (order_calls (after (main env argv))) <= 1 /\
  (length (order_calls (after (main env argv))) = 1
   <-> exists args kw,
         parse_args argv = Parsed args /\ reaches_dispatch env args /\
         build_kwargs args = inr kw).
Proof.
  destruct (parse_args argv) as [args|code|exc] eqn:Hp.
  - destruct (build_kwargs args) as [exc|kw] eqn:Hk.
    + destruct (main_rejected env argv args exc Hp Hk) as [-> _]. simpl.
      split; [lia|]. split; [done|]. intros (args' & kw & [= <-] & _ & Hk').
      by rewrite Hk in Hk'.
    + destruct (parse_args_ok argv args Hp) as (_ & Hty & _).
      destruct (accepted_cases (exchange env) args kw Hty Hk) as (h & sent & He & _).
      destruct (set_up_error env args) as [exc|] eqn:Hs.
      * destruct (main_stopped env argv args exc Hp Hs) as [_ ->]. simpl.
        split; [lia|]. split; [done|]. intros (args' & kw' & [= <-] & Hr & _).
        unfold reaches_dispatch in Hr. by rewrite Hs in Hr.
      * destruct (main_dispatched env argv args kw h sent Hp Hs He) as [_ ->]. simpl.
        split; [lia|]. split; [|done]. intros _. by exists args, kw.
  - rewrite (main_ParserExit env argv code Hp). simpl. split; [lia|].
    split; [done|]. by intros (args & kw & ? & _).
  - rewrite (main_ParserRaises env argv exc Hp). simpl. split; [lia|].
    split; [done|]. by intros (args & kw & ? & _).
Qed.

(** X17: the request that a command line makes carries no [signature], so
    when the dispatch is reached and the cross-field checks pass, the INFO
    record written just before the call shows the parameters exactly as
    they are sent. *)
Theorem cli_log_shows_sent env argv args kw :
  parse_args argv = Parsed args ->
  reaches_dispatch env args ->
  build_kwargs args = inr kw ->
  exists sent before rest,
    trace (after (main env argv))
    = before ++ [Log INFO "Sending order request: %s" [LDict sent];
                 CreateOrder sent] ++ rest /\
    sent !! "signature" = None.
Proof.
  intros Hp Hr Hk.
  destruct (parse_args_ok argv args Hp) as (_ & Hty & _).
  destruct (execute_order_accepted (exchange env) args kw Hty Hk)
    as (h & sent & He & _ & Hsig & _).
  destruct (main_reached env argv args Hp Hr) as [_ ->]. rewrite He.
  destruct (dispatched_trace (exchange env) args kw h sent) as (before & rest & ->).
  rewrite (delete_id _ _ Hsig).
  by exists sent, before, rest.
Qed.

Lemma cli_log_shows_sent_witness :
  parse_args limit_argv = Parsed limit_args /\
  reaches_dispatch (env_of rejecting_client true) limit_args /\
  build_kwargs limit_args
  = inr (mkKwargs "ethusdt" "BUY" (float_of_Decimal (DecFinite false 2 0))
                  (Some true) (Some hundred) None (Some "IOC")) /\
  exists sent before rest,
    trace (after (main (env_of rejecting_client true) limit_argv))
    = before ++ [Log INFO "Sending order request: %s" [LDict sent];
                 CreateOrder sent] ++ rest /\
    sent !! "signature" = None.
Proof.
  split; [reflexivity|]. split; [reflexivity|]. split; [reflexivity|].
  apply (cli_log_shows_sent (env_of rejecting_client true) limit_argv limit_args
           (mkKwargs "ethusdt" "BUY" (float_of_Decimal (DecFinite false 2 0))
                     (Some true) (Some hundred) None (Some "IOC"))); reflexivity.
Defined.

(** X18: for an order type among the parser's choices [execute_order]
    raises nothing of its own besides the ValueError of its checks: an
    exception that leaves it is that ValueError, raised before any call, or
    the very exception the exchange client raised in the one call
    [execute_order] made.  The dispatch table and the keyword arguments
    never fail. *)
Theorem dispatch_raises_only client args exc w :
  args_order_type args ∈ ["MARKET"; "LIMIT"; "STOP_LIMIT"] ->
  execute_order client args started = Raise exc w ->
  (build_kwargs args = inl exc /\ order_calls w = []) \/
  (exists sent, client sent = Failure exc /\ order_calls w = [sent]).
Proof.
  intros Hty Hraise.
  destruct (build_kwargs args) as [exc'|kw] eqn:Hk.
  - left. unfold execute_order in Hraise. rewrite Hk in Hraise.
    by injection Hraise as -> <-.
  - right.
    destruct (accepted_cases client args kw Hty Hk) as (h & sent & He & _).
    exists sent.
    pose proof (dispatched_calls client args kw h sent) as Hcalls.
    rewrite <- He, Hraise in Hcalls. split; [|exact Hcalls].
    rewrite He in Hraise. unfold dispatched in Hraise.
    destruct (client sent) as [resp|exc']; [done|]. by injection Hraise as -> _.
Qed.

Lemma dispatch_raises_only_witness :
  (args_order_type market_with_prices_args ∈ ["MARKET"; "LIMIT"; "STOP_LIMIT"]) /\
  execute_order rejecting_client market_with_prices_args started
  = Raise (mkExn BinanceAPIException
             "APIError(code=-2019): Margin is insufficient.")
          (final_world (execute_order rejecting_client market_with_prices_args
                          started)) /\
  ((build_kwargs market_with_prices_args
    = inl (mkExn BinanceAPIException
             "APIError(code=-2019): Margin is insufficient.") /\
    order_calls (final_world (execute_order rejecting_client
                                market_with_prices_args started)) = []) \/
   (exists sent,
      rejecting_client sent
      = Failure (mkExn BinanceAPIException
                   "APIError(code=-2019): Margin is insufficient.") /\
      order_calls (final_world (execute_order rejecting_client
                                  market_with_prices_args started)) = [sent])).
Proof.
  assert (Hty : args_order_type market_with_prices_args
                  ∈ ["MARKET"; "LIMIT"; "STOP_LIMIT"])
    by (apply (bool_decide_unpack _); reflexivity).
  assert (Hraise :
            execute_order rejecting_client market_with_prices_args started
            = Raise (mkExn BinanceAPIException
                       "APIError(code=-2019): Margin is insufficient.")
                    (final_world (execute_order rejecting_client
                                    market_with_prices_args started)))
    by (vm_compute; reflexivity).
  split; [exact Hty|]. split; [exact Hraise|].
  apply (dispatch_raises_only rejecting_client market_with_prices_args _ _ Hty Hraise).
Defined.

(** X19: called with an order type that is not in its dispatch table,
    [execute_order] raises KeyError for that type before any order is built:
    the client is not called and no object is created; the handlers of
    [main] turn this exception into exit code 3. *)
Theorem unknown_order_type client args w :
  args_order_type args ∉ ["MARKET"; "LIMIT"; "STOP_LIMIT"] ->
  exists w',
    execute_order client args w = Raise (mkExn KeyError (args_order_type args)) w' /\
    order_calls w' = order_calls w /\
    heap w' = heap w /\
    exit_code (mkExn KeyError (args_order_type args)) = 3%Z.
Proof.
  intros Hty.
  assert (Hm : String.eqb (args_order_type args) "MARKET" = false)
    by (apply String.eqb_neq; intros Heq; apply Hty; rewrite Heq; set_solver).
  assert (Hl : String.eqb (args_order_type args) "LIMIT" = false)
    by (apply String.eqb_neq; intros Heq; apply Hty; rewrite Heq; set_solver).
  assert (Hs : String.eqb (args_order_type args) "STOP_LIMIT" = false)
    by (apply String.eqb_neq; intros Heq; apply Hty; rewrite Heq; set_solver).
  unfold execute_order, build_kwargs, order_dispatch. rewrite Hm, Hl, Hs.
  eexists. split; [reflexivity|]. simpl. split; [|done].
  unfold order_calls; simpl. rewrite omap_app; simpl. by rewrite app_nil_r.
Qed.

Lemma unknown_order_type_witness :
  (args_order_type unknown_type_args ∉ ["MARKET"; "LIMIT"; "STOP_LIMIT"]) /\
  exists w',
    execute_order accepting_client unknown_type_args started
    = Raise (mkExn KeyError (args_order_type unknown_type_args)) w' /\
    order_calls w' = order_calls started /\
    heap w' = heap started /\
    exit_code (mkExn KeyError (args_order_type unknown_type_args)) = 3%Z.
Proof.
  assert (Hty : args_order_type unknown_type_args ∉ ["MARKET"; "LIMIT"; "STOP_LIMIT"]).
  { apply (bool_decide_unpack _). reflexivity. }
  split; [exact Hty|].
  apply (unknown_order_type accepting_client unknown_type_args started Hty).
Defined.

(** ** The exceptions that leave [main] *)

(** X23: once the arguments are parsed, an exception leaves [main] in two
    cases only: the logging configuration or the construction of the client
    raised it, before the [try] statement, whatever its class (nothing is
    logged or sent then); or the exchange client raised it in the order
    call and it is not below [Exception]. *)
Theorem uncaught_exceptions env argv args exc :
  parse_args argv = Parsed args ->
  (status (main env argv) = Uncaught exc
   <-> set_up_error env args = Some exc \/
       (reaches_dispatch env args /\
        exists sent,
          order_calls (after (main env argv)) = [sent] /\
          exchange env sent = Failure exc /\
          isinstance exc [Exception_] = false)) /\
  (set_up_error env args = Some exc -> after (main env argv) = initial_world).
Proof.
  intros Hp. split; [|intros Hs; by destruct (main_stopped env argv args exc Hp Hs)].
  destruct (set_up_error env args) as [exc'|] eqn:Hs.
  - destruct (main_stopped env argv args exc' Hp Hs) as [-> _]. split.
    + intros [= ->]. by left.
    + intros [[= ->]|[Hr _]]; [done|].
      unfold reaches_dispatch in Hr. by rewrite Hs in Hr.
  - destruct (build_kwargs args) as [exc'|kw] eqn:Hk.
    + destruct (main_rejected env argv args exc' Hp Hk) as [Hcalls Hret].
      destruct (Hret Hs) as [-> _]. split; [done|].
      intros [?|(_ & sent & Hc & _)]; [done|]. by rewrite Hcalls in Hc.
    + destruct (parse_args_ok argv args Hp) as (_ & Hty & _).
      destruct (accepted_cases (exchange env) args kw Hty Hk) as (h & sent & He & _).
      destruct (main_dispatched env argv args kw h sent Hp Hs He) as [-> ->].
      split.
      * intros Hst. right. split; [done|]. exists sent. split; [done|].
        destruct (exchange env sent) as [r|exc']; [done|].
        destruct (isinstance exc' [Exception_]) eqn:Hi; [done|].
        by injection Hst as ->.
      * intros [?|(_ & sent' & [= <-] & -> & ->)]; done.
Qed.

Lemma uncaught_exceptions_witness :
  parse_args market_argv = Parsed market_args /\
  (status (main (env_of interrupted_client true) market_argv)
   = Uncaught (mkExn (BaseOnly "KeyboardInterrupt") "")
   <-> set_up_error (env_of interrupted_client true) market_args
       = Some (mkExn (BaseOnly "KeyboardInterrupt") "") \/
       (reaches_dispatch (env_of interrupted_client true) market_args /\
        exists sent,
          order_calls (after (main (env_of interrupted_client true) market_argv))
          = [sent] /\
          exchange (env_of interrupted_client true) sent
          = Failure (mkExn (BaseOnly "KeyboardInterrupt") "") /\
          isinstance (mkExn (BaseOnly "KeyboardInterrupt") "") [Exception_]
          = false)) /\
  (set_up_error (env_of interrupted_client true) market_args
   = Some (mkExn (BaseOnly "KeyboardInterrupt") "") ->
   after (main (env_of interrupted_client true) market_argv) = initial_world).
Proof.
  split; [reflexivity|].
  apply (uncaught_exceptions (env_of interrupted_client true) market_argv
           market_args (mkExn (BaseOnly "KeyboardInterrupt") "")).
  reflexivity.
Defined.

(** ** The logging configuration *)

Section LoggingProperties.

Variable logging_attr : string -> option level_attr.
Variable open_error : string -> option exn.

Local Abbreviation configure := (configure_logging logging_attr open_error).

Lemma configure_run log_file log_level root :
  configure log_file log_level root
  = match level_given logging_attr log_level with
    | NotLevel exc => (mkLogger [] (logger_level root), Some exc)
    | IsLevel n =>
        match open_error log_file with
        | None => (mkLogger [StreamHandler "sys.stdout" log_format;
                             FileHandler log_file log_format] n, None)
        | Some exc => (mkLogger [StreamHandler "sys.stdout" log_format] n, Some exc)
        end
    end.
Proof.
  unfold configure_logging, level_given. rewrite handlers_cleared.
  destruct (default (IsLevel logging_INFO) (logging_attr (upper log_level)));
    [|done].
  by destruct (open_error log_file).
Qed.

(** X20: [configure_logging] returns normally exactly when the attribute
    named by the level is a level and the log file can be opened; it then
    leaves the root logger with exactly two handlers, the console handler
    and the file handler of the given file, whatever handlers it had
    before, and calling it again with the same arguments changes nothing
    (no handler is duplicated). *)
Theorem configure_logging_handlers log_file log_level root :
  (snd (configure log_file log_level root) = None
   <-> (exists n, level_given logging_attr log_level = IsLevel n)
       /\ open_error log_file = None) /\
  (snd (configure log_file log_level root) = None ->
     handlers (fst (configure log_file log_level root))
     = [StreamHandler "sys.stdout" log_format; FileHandler log_file log_format] /\
     configure log_file log_level (fst (configure log_file log_level root))
     = configure log_file log_level root).
Proof.
  rewrite !configure_run.
  destruct (level_given logging_attr log_level) as [n|exc] eqn:Hl.
  - destruct (open_error log_file) as [exc|] eqn:Hopen; simpl.
    + split; [split; [done | by intros [_ ?]] | done].
    + split; [split; [intros _; split; [by exists n|done] | done]|].
      intros _. by split.
  - simpl. split; [split; [done | by intros [[n ?] _]] | done].
Qed.

(** X21: when the level is a level and the log file cannot be opened,
    [configure_logging] raises the error of [FileHandler] after it has
    removed the earlier handlers, set the level and installed the console
    handler, which stays the only handler. *)
Theorem configure_logging_unwritable log_file log_level root n exc :
  level_given logging_attr log_level = IsLevel n ->
  open_error log_file = Some exc ->
  configure log_file log_level root
  = (mkLogger [StreamHandler "sys.stdout" log_format] n, Some exc).
Proof. intros Hl Hopen. by rewrite configure_run, Hl, Hopen. Qed.

(** X22: [configure_logging] hands [setLevel] the attribute of the
    [logging] module named by the upper-cased [--log-level], and
    [logging.INFO] when there is no such attribute, so the letter case of
    the option does not matter.  When the attribute is a level, it is the
    level of the root logger afterwards, whether or not the log file opens;
    when it is not (the string [BASIC_FORMAT], say), the exception of
    [setLevel] ends the call once the earlier handlers are removed: the
    root logger is left without a handler and with the level it had. *)
Theorem configure_logging_level log_file log_level root :
  (forall n, level_given logging_attr log_level = IsLevel n ->
     logger_level (fst (configure log_file log_level root)) = n) /\
  (forall exc, level_given logging_attr log_level = NotLevel exc ->
     configure log_file log_level root
     = (mkLogger [] (logger_level root), Some exc)) /\
  (logging_attr (upper log_level) = None ->
     logger_level (fst (configure log_file log_level root)) = logging_INFO) /\
  (forall other_level,
     upper other_level = upper log_level ->
     configure log_file other_level root = configure log_file log_level root).
Proof.
  split_and!.
  - intros n Hl. rewrite configure_run, Hl. by destruct (open_error log_file).
  - intros exc Hl. by rewrite configure_run, Hl.
  - intros Hnone. rewrite configure_run. unfold level_given. rewrite Hnone; simpl.
    by destruct (open_error log_file).
  - intros other Hup. rewrite !configure_run. unfold level_given. by rewrite Hup.
Qed.

End LoggingProperties.

Lemma configure_logging_unwritable_witness :
  level_given sample_logging "debug" = IsLevel 10 /\
  (fun _ : string => Some no_such_file) "/no/such/dir/bot.log"
  = Some no_such_file /\
  configure_logging sample_logging (fun _ => Some no_such_file)
    "/no/such/dir/bot.log" "debug" (mkLogger earlier_handlers logging_WARNING)
  = (mkLogger [StreamHandler "sys.stdout" log_format] 10, Some no_such_file).
Proof.
  split; [reflexivity|]. split; [reflexivity|].
  apply (configure_logging_unwritable sample_logging (fun _ => Some no_such_file)
           "/no/such/dir/bot.log" "debug"
           (mkLogger earlier_handlers logging_WARNING) 10 no_such_file);
    reflexivity.
Defined.

(** The sample invocations, evaluated. *)
Example stop_limit_run :
  status (main (env_of accepting_client true) stop_limit_argv) = Returned 0 /\
  order_calls (after (main (env_of accepting_client true) stop_limit_argv))
  = [ <["symbol" := VStr "ETHUSDT"]> (<["side" := VStr "SELL"]>
      (<["type" := VStr "STOP"]> (<["quantity" := VFloat one]>
      (<["price" := VFloat hundred]> (<["stopPrice" := VFloat ninety_five]>
      (<["timeInForce" := VStr "GTC"]>
      {["workingType" := VStr "CONTRACT_PRICE"]})))))) ] /\
  root_after (main (env_of accepting_client true) stop_limit_argv)
  = mkLogger [StreamHandler "sys.stdout" log_format;
              FileHandler "bot.log" log_format] 20.
Proof. split_and!; vm_compute; reflexivity. Qed.

Example market_run_rejected :
  status (main (env_of rejecting_client true) market_with_prices_argv)
  = Returned 1 /\
  order_calls (after (main (env_of rejecting_client true) market_with_prices_argv))
  = [ <["symbol" := VStr "BTCUSDT"]> (<["side" := VStr "BUY"]>
      (<["type" := VStr "MARKET"]> (<["quantity" := VFloat one]>
      {["reduceOnly" := VBool true]}))) ].
Proof. split; vm_compute; reflexivity. Qed.

Example limit_without_price_run :
  status (main (env_of accepting_client true) limit_without_price_argv)
  = Returned 2 /\
  after (main (env_of accepting_client true) limit_without_price_argv)
  = mkWorld []
      [Log DEBUG "Initialized BasicBot with testnet=%s" [LStr "True"];
       Log ERROR "Input validation error: %s"
           [LExn (mkExn ValueError "--price is required for LIMIT orders")]].
Proof. split; vm_compute; reflexivity. Qed.

Example bad_level_run :
  main (mkEnvironment accepting_client (fun _ _ => None) sample_logging
          (fun _ => None) (mkLogger earlier_handlers logging_WARNING))
       bad_level_argv
  = mkFinish (Uncaught (mkExn ValueError "Unknown level")) initial_world
             (mkLogger [] logging_WARNING).
Proof. vm_compute. reflexivity. Qed.

Example help_run :
  status (main (env_of accepting_client true) [OptSide "HOLD"; OptHelp])
  = SystemExit 2 /\
  status (main (env_of accepting_client true) [OptSide "BUY"; OptHelp; Malformed])
  = SystemExit 0 /\
  status (main (env_of accepting_client true)
            (market_argv ++ [OptStopPrice (IsDecimal DecNaN)]))
  = Uncaught nan_error.
Proof. split_and!; reflexivity. Qed.
